(** * DensityOnChrHeatmap: a shallow embedding of DensityOnChrHeatmap.py

    The script reads two whitespace separated tables (genes, SNPs) into
    dicts keyed by chromosome, derives layout and colour statistics and
    draws one track per chromosome into an SVG drawing, saved at the end.

    Modelling choices:
    - Python's exceptions are the [err] constructors; a computation that may
      raise is an [R A := err + A] and [x <- m ;; k] is Python's sequencing:
      the first exception aborts the rest.  [create_visualization] returning
      [inr d] means that [dwg.save()] ran and wrote [d]; [inl e] means the
      exception [e] escaped before the save, so no file is written.
    - Python floats are modelled by exact rationals [Q]; the square root used
      by [statistics.stdev] and the parser used by [float()] are parameters
      ([sqrt], [py_float]) so that every theorem below holds for any choice.
    - a dict is an association list in insertion order (Python's iteration
      order), lookups return the first binding; strings are Stdlib strings. *)

From Stdlib Require Import String Ascii ZArith QArith Qround Qfield List Bool Lia.
From Stdlib Require Import Sorting.Permutation Sorting.Sorted Lqa.
Import ListNotations.
Open Scope Z_scope.

(* ------------------------------------------------------------------ *)
(** ** Exceptions and the error monad *)

Inductive err :=
| ValueError          (* bad unpacking, int()/float() parse, max()/min() of an empty sequence *)
| ZeroDivisionError
| KeyError
| IndexError
| StatisticsError
| TypeError.          (* svgwrite's attribute validation *)

Definition R (A : Type) : Type := (err + A)%type.

Definition ret {A} (a : A) : R A := inr a.
Definition raise {A} (e : err) : R A := inl e.

Definition bind {A B} (m : R A) (k : A -> R B) : R B :=
  match m with
  | inl e => inl e
  | inr a => k a
  end.

Notation "x <- m ;; k" := (bind m (fun x => k))
  (at level 61, m at next level, right associativity).

Lemma bind_inr {A B} (m : R A) (k : A -> R B) (b : B) :
  bind m k = inr b -> exists a, m = inr a /\ k a = inr b.
Proof. destruct m as [e|a]; simpl; [discriminate | eauto]. Qed.

Lemma bind_inl {A B} (m : R A) (k : A -> R B) (e : err) :
  m = inl e -> bind m k = inl e.
Proof. intros ->; reflexivity. Qed.

Ltac inv_bind H :=
  let a := fresh "a" in
  let Ha := fresh "Ha" in
  apply bind_inr in H; destruct H as [a [Ha H]].

(** [for x in xs: ys.append(f(x))], stopping at the first exception. *)
Fixpoint mapR {A B} (f : A -> R B) (xs : list A) : R (list B) :=
  match xs with
  | [] => ret []
  | x :: xs' => y <- f x ;; ys <- mapR f xs' ;; ret (y :: ys)
  end.

Lemma mapR_inr {A B} (f : A -> R B) xs ys :
  mapR f xs = inr ys -> Forall2 (fun x y => f x = inr y) xs ys.
Proof.
  revert ys; induction xs as [|x xs IH]; simpl; intros ys H.
  - inversion H; constructor.
  - inv_bind H; inv_bind H; inversion H; subst; constructor; auto.
Qed.


(* ------------------------------------------------------------------ *)
(** ** Python builtins on the values the script uses *)

(** [a < b] on floats. *)
Definition qltb (a b : Q) : bool := negb (Qle_bool b a).

(** [a / b] on Python numbers: [ZeroDivisionError] when [b == 0]. *)
Definition py_div (a b : Q) : R Q :=
  if Qeq_bool b 0%Q then raise ZeroDivisionError else ret (a / b)%Q.

(** [int(x)] on a float: truncation toward zero. *)
Definition py_int_of_float (x : Q) : Z := Z.quot (Qnum x) (Zpos (Qden x)).

(** [max(iterable)]: [ValueError] on an empty iterable, otherwise the
    first element is kept unless a later one is strictly greater. *)
Definition py_max {A} (ltb : A -> A -> bool) (xs : list A) : R A :=
  match xs with
  | [] => raise ValueError
  | x :: rest => ret (fold_left (fun cur y => if ltb cur y then y else cur) rest x)
  end.

(** [min(iterable)]: symmetric to [py_max]. *)
Definition py_min {A} (ltb : A -> A -> bool) (xs : list A) : R A :=
  match xs with
  | [] => raise ValueError
  | x :: rest => ret (fold_left (fun cur y => if ltb y cur then y else cur) rest x)
  end.

(** [max(a, b)] and [min(a, b)] on two floats. *)
Definition py_max2 (a b : Q) : Q := if qltb a b then b else a.
Definition py_min2 (a b : Q) : Q := if qltb b a then b else a.

(** [lst[i]]: negative indices count from the end, others raise [IndexError]. *)
Definition py_index {A} (xs : list A) (i : Z) : R A :=
  let n := Z.of_nat (length xs) in
  let j := if i <? 0 then i + n else i in
  if (j <? 0) || (n <=? j) then raise IndexError
  else match nth_error xs (Z.to_nat j) with
       | Some x => ret x
       | None => raise IndexError
       end.

(** Whitespace as [str.isspace] sees it on ASCII characters. *)
Definition is_space (c : ascii) : bool :=
  let n := nat_of_ascii c in
  ((9 <=? n) && (n <=? 13))%nat || ((28 <=? n) && (n <=? 32))%nat.

Definition is_digit (c : ascii) : bool :=
  let n := nat_of_ascii c in ((48 <=? n) && (n <=? 57))%nat.

Definition digit_val (c : ascii) : Z := Z.of_nat (nat_of_ascii c) - 48.

Fixpoint drop_space (l : list ascii) : list ascii :=
  match l with
  | c :: r => if is_space c then drop_space r else l
  | [] => []
  end.

(** [s.strip()] *)
Definition strip (l : list ascii) : list ascii :=
  rev (drop_space (rev (drop_space l))).

(** Digits after the first one: an underscore is allowed only between two digits. *)
Fixpoint digits_tail (acc : Z) (l : list ascii) : option Z :=
  match l with
  | [] => Some acc
  | c :: r =>
      if is_digit c then digits_tail (acc * 10 + digit_val c) r
      else if Ascii.eqb c "_"%char then
        match r with
        | d :: r' => if is_digit d then digits_tail (acc * 10 + digit_val d) r' else None
        | [] => None
        end
      else None
  end.

Definition digits (l : list ascii) : option Z :=
  match l with
  | c :: r => if is_digit c then digits_tail (digit_val c) r else None
  | [] => None
  end.

(** [int(s)] on a string, base 10: surrounding whitespace, an optional sign,
    then decimal digits with single underscores between digits; [None] is
    Python's [ValueError].  (Non-ASCII Unicode digits are not modelled.) *)
Definition py_int (s : string) : option Z :=
  match strip (list_ascii_of_string s) with
  | c :: r =>
      if Ascii.eqb c "-"%char then option_map Z.opp (digits r)
      else if Ascii.eqb c "+"%char then digits r
      else digits (c :: r)
  | [] => None
  end.

(** [s.split()] with no argument: maximal runs of non-whitespace. *)
Fixpoint split_aux (cur : list ascii) (l : list ascii) : list string :=
  match l with
  | [] => match cur with [] => [] | _ => [string_of_list_ascii (rev cur)] end
  | c :: r =>
      if is_space c then
        match cur with
        | [] => split_aux [] r
        | _ => string_of_list_ascii (rev cur) :: split_aux [] r
        end
      else split_aux (c :: cur) r
  end.

Definition py_split (s : string) : list string := split_aux [] (list_ascii_of_string s).

(** [s[3:]] *)
Fixpoint str_drop (n : nat) (s : string) : string :=
  match n, s with
  | O, _ => s
  | S n', String _ s' => str_drop n' s'
  | S _, EmptyString => EmptyString
  end.

(* ------------------------------------------------------------------ *)
(** ** Dicts keyed by chromosome name *)

Definition dict (V : Type) := list (string * V).

Fixpoint dict_get {V} (k : string) (d : dict V) : option V :=
  match d with
  | [] => None
  | (k', v) :: d' => if String.eqb k k' then Some v else dict_get k d'
  end.

(** [d[k]]: [KeyError] when absent. *)
Definition dict_lookup {V} (k : string) (d : dict V) : R V :=
  match dict_get k d with
  | Some v => ret v
  | None => raise KeyError
  end.

(** [d[k] = v]: replaces in place, or appends a new key at the end. *)
Fixpoint dict_set {V} (k : string) (v : V) (d : dict V) : dict V :=
  match d with
  | [] => [(k, v)]
  | (k', v') :: d' => if String.eqb k k' then (k', v) :: d' else (k', v') :: dict_set k v d'
  end.

Definition dict_keys {V} (d : dict V) : list string := map fst d.
Definition dict_values {V} (d : dict V) : list V := map snd d.

(* ------------------------------------------------------------------ *)
(** ** read_data *)

(** One interval record [(int(start), int(end), float(value))]. *)
Definition record : Type := (Z * Z * Q)%type.

Section ReadData.

(** Python's [float()] on a string; [None] is its [ValueError]. *)
Variable py_float : string -> option Q.

Definition parse_field {A} (o : option A) : R A :=
  match o with Some a => ret a | None => raise ValueError end.

(** One iteration of the [for line in f] loop of [read_data]:
    [chrom, start, end, value = line.strip().split()] (ValueError unless
    exactly four fields), [data[chrom] = []] for a new key, then
    [data[chrom].append((int(start), int(end), float(value)))]; the
    conversions run after the new key was inserted. *)
Definition read_line (data : dict (list record)) (line : string) : R (dict (list record)) :=
  match py_split line with
  | [chrom; start; end_; value] =>
      let data := match dict_get chrom data with
                  | Some _ => data
                  | None => dict_set chrom [] data
                  end in
      lst <- dict_lookup chrom data ;;
      s <- parse_field (py_int start) ;;
      e <- parse_field (py_int end_) ;;
      v <- parse_field (py_float value) ;;
      ret (dict_set chrom (lst ++ [(s, e, v)]) data)
  | _ => raise ValueError
  end.

Fixpoint read_lines (data : dict (list record)) (lines : list string) : R (dict (list record)) :=
  match lines with
  | [] => ret data
  | l :: ls => data' <- read_line data l ;; read_lines data' ls
  end.

(** [read_data(filename)], given the lines of the file. *)
Definition read_data (lines : list string) : R (dict (list record)) := read_lines [] lines.

End ReadData.

(* ------------------------------------------------------------------ *)
(** ** The drawing *)

Open Scope Q_scope.

(** [create_chromosome_shape(x, y, width, height)]: the capsule path, kept as
    its four parameters (the path string is a function of them). *)
Record path := mk_path { px : Q; py : Q; pw : Q; ph : Q }.

Record rect := mk_rect { rx : Q; ry : Q; rw : Q; rh : Q; rfill : string }.

Record line := mk_line { lx1 : Q; ly1 : Q; lx2 : Q; ly2 : Q }.

Record text := mk_text { txt : string; tx : Q; ty : Q }.

(** A ruler tick: its line and its label [f'{mb:.1f} Mb'] placed at [(tk_x, tk_y)]. *)
Record tick := mk_tick { tk_line : line; tk_mb : Q; tk_x : Q; tk_y : Q }.

(** What one iteration of the chromosome loop adds to the drawing, in order:
    the shape, the clip path [clip-<chrom>] in the defs holding the same
    shape, the clipped heatmap group, the SNP polyline, the vertical axis,
    the baseline and the name. *)
Record track := mk_track {
  tr_shape : path;
  tr_clip_id : string;
  tr_rects : list rect;
  tr_points : list (Q * Q);
  tr_axis : line;
  tr_baseline : line;
  tr_label : text }.

(** The saved drawing: its size, the white background, the tracks in loop
    order, the ruler and the legend with its two labels. *)
Record drawing := mk_drawing {
  d_width : Z;
  d_height : Z;
  d_tracks : list track;
  d_ticks : list tick;
  d_legend : list rect;
  d_min_label : text;
  d_max_label : text }.

Definition svg_width : Z := 1200.
Definition chr_height : Z := 14.
Definition chr_spacing : Z := 120.
Definition margin_top : Z := 160.
Definition margin_bottom : Z := 100.
Definition margin_side : Z := 100.

Definition colors : list string :=
  ["#d1e5f0"; "#92c5de"; "#4393c3"; "#2166ac"; "#053061"]%string.

Definition Qz (z : Z) : Q := inject_Z z.

(* ------------------------------------------------------------------ *)
(** ** Statistics *)

Definition qsum (xs : list Q) : Q := fold_left Qplus xs 0.

(** [statistics.mean]: [StatisticsError] on no data. *)
Definition py_mean (xs : list Q) : R Q :=
  match xs with
  | [] => raise StatisticsError
  | _ => ret (qsum xs / Qz (Z.of_nat (List.length xs)))
  end.

Section Stdev.

(** The square root that turns the sample variance into [stdev]. *)
Variable sqrt : Q -> Q.

(** [statistics.stdev]: [StatisticsError] below two data points, otherwise the
    square root of the sample variance [sum((x - mean)^2) / (n - 1)]. *)
Definition py_stdev (xs : list Q) : R Q :=
  let n := List.length xs in
  if (n <? 2)%nat then raise StatisticsError
  else
    let m := qsum xs / Qz (Z.of_nat n) in
    let ss := qsum (map (fun x => (x - m) * (x - m)) xs) in
    ret (sqrt (ss / Qz (Z.of_nat n - 1))).

End Stdev.

(* ------------------------------------------------------------------ *)
(** ** Chromosome order: [sorted(genes_data.keys(), key=lambda x: int(x[3:]))] *)

(** The sort key of a chromosome name. *)
Definition suffix_key (c : string) : option Z := py_int (str_drop 3 c).

(** Insertion after every element whose key is [<=]: keeps equal keys in
    their input order, as Python's stable sort does. *)
Fixpoint insert_key (p : Z * string) (l : list (Z * string)) : list (Z * string) :=
  match l with
  | [] => [p]
  | q :: l' => if (fst p <? fst q)%Z then p :: l else q :: insert_key p l'
  end.

Definition stable_sort (l : list (Z * string)) : list (Z * string) :=
  fold_left (fun acc p => insert_key p acc) l [].

(** [sorted] computes every key first, so any unparsable suffix raises. *)
Definition chromosome_order {V} (genes_data : dict V) : R (list string) :=
  keyed <- mapR (fun c => k <- parse_field (suffix_key c) ;; ret (k, c)) (dict_keys genes_data) ;;
  ret (map snd (stable_sort keyed)).

(* ------------------------------------------------------------------ *)
(** ** Global statistics (lines 49-61) *)

Definition rec_end (r : record) : Z := let '(_, e, _) := r in e.
Definition rec_value (r : record) : Q := let '(_, _, v) := r in v.

(** [for chrom in chromosomes: chr_lengths[chrom] = max(end for genes)] *)
Fixpoint chr_lengths_loop (genes_data : dict (list record)) (chroms : list string)
    (acc : dict Z) : R (dict Z) :=
  match chroms with
  | [] => ret acc
  | chrom :: rest =>
      genes <- dict_lookup chrom genes_data ;;
      m <- py_max Z.ltb (map rec_end genes) ;;
      chr_lengths_loop genes_data rest (dict_set chrom m acc)
  end.

(** [[value for chrom in d for _, _, value in d[chrom]]] *)
Definition all_values (d : dict (list record)) : list Q :=
  concat (map (fun kv => map rec_value (snd kv)) d).

Record setup := mk_setup {
  s_chromosomes : list string;
  s_chr_lengths : dict Z;
  s_max_chr_len : Z;
  s_max_snp : Q;
  s_mean : Q;
  s_stdev : Q }.

Definition min_clamp (st : setup) : Q := s_mean st - s_stdev st.
Definition max_clamp (st : setup) : Q := s_mean st + s_stdev st.

(** Lines 36 and 49-59 of [create_visualization], in program order. *)
Definition compute_setup (sqrt : Q -> Q) (genes_data snps_data : dict (list record)) : R setup :=
  chromosomes <- chromosome_order genes_data ;;
  chr_lengths <- chr_lengths_loop genes_data chromosomes [] ;;
  max_chr_len <- py_max Z.ltb (dict_values chr_lengths) ;;
  let gene_values := all_values genes_data in
  max_snp_value <- py_max qltb (all_values snps_data) ;;
  mean <- py_mean gene_values ;;
  stdev <- py_stdev sqrt gene_values ;;
  ret (mk_setup chromosomes chr_lengths max_chr_len max_snp_value mean stdev).

(* ------------------------------------------------------------------ *)
(** ** One chromosome track (lines 66-100) *)

(** Lines 80-81: [clamped_value = max(min(value, max_clamp), min_clamp)] and
    [color_index = min(int((clamped_value - min_clamp) / (max_clamp - min_clamp) * len(colors)), len(colors) - 1)]. *)
Definition clamp_value (mn mx value : Q) : Q := py_max2 (py_min2 value mx) mn.

Definition color_index (mn mx value : Q) : R Z :=
  let clamped_value := clamp_value mn mx value in
  q <- py_div (clamped_value - mn) (mx - mn) ;;
  let k := py_int_of_float (q * Qz (Z.of_nat (List.length colors))) in
  let top := (Z.of_nat (List.length colors) - 1)%Z in
  ret (if (top <? k)%Z then top else k).

(** Lines 78-83: one heatmap rectangle. *)
Definition gene_rect (st : setup) (y chr_len : Z) (chr_width : Q) (g : record) : R rect :=
  let '(start, end_, value) := g in
  fx <- py_div (Qz (start - 1)) (Qz chr_len) ;;
  let x := Qz margin_side + fx * chr_width in
  fw <- py_div (Qz (end_ - start + 1)) (Qz chr_len) ;;
  let width := py_max2 1 (fw * chr_width) in
  ci <- color_index (min_clamp st) (max_clamp st) value ;;
  fill <- py_index colors ci ;;
  ret (mk_rect x (Qz y) width (Qz chr_height) fill).

(** Lines 86-88: one polyline point. *)
Definition snp_point (st : setup) (y chr_len : Z) (chr_width : Q) (s : record) : R (Q * Q) :=
  let '(start, _, value) := s in
  fx <- py_div (Qz (start - 1)) (Qz chr_len) ;;
  h <- py_div value (s_max_snp st) ;;
  ret (Qz margin_side + fx * chr_width, Qz y - 30 - h * 100).

(** [y = margin_top + i * (chr_height + chr_spacing)] *)
Definition track_y (i : nat) : Z := (margin_top + Z.of_nat i * (chr_height + chr_spacing))%Z.

(** Line 67: [chr_width = (svg_width - 2 * margin_side) * (chr_lengths[chrom] / max_chr_len)]. *)
Definition chr_width_of (max_chr_len chr_len : Z) : R Q :=
  ratio <- py_div (Qz chr_len) (Qz max_chr_len) ;;
  ret (Qz (svg_width - 2 * margin_side) * ratio).

(** svgwrite's [TypeChecker.is_name], which the default debug-mode
    validation of [svgwrite.Drawing] applies to an [id] attribute: a
    non-empty string with none of the characters of [INVALID_NAME_CHARS]
    (space, tab, carriage return, line feed, [,], [(] and [)]). *)
Definition invalid_name_char (a : ascii) : bool :=
  existsb (Ascii.eqb a) [" "; "009"; "013"; "010"; ","; "("; ")"]%char.

Definition svg_is_name (s : string) : bool :=
  negb (String.eqb s EmptyString) && negb (existsb invalid_name_char (list_ascii_of_string s)).

(** Line 73: [dwg.clipPath(id=f'clip-{chrom}')] raises [TypeError] on an
    invalid id. *)
Definition svg_check_name (s : string) : R unit :=
  if svg_is_name s then ret tt else raise TypeError.

(** The body of [for i, chrom in enumerate(chromosomes)]. *)
Definition render_track (st : setup) (genes_data snps_data : dict (list record))
    (i : nat) (chrom : string) : R track :=
  let y := track_y i in
  chr_len <- dict_lookup chrom (s_chr_lengths st) ;;
  chr_width <- chr_width_of (s_max_chr_len st) chr_len ;;
  let chr_shape := mk_path (Qz margin_side) (Qz y) chr_width (Qz chr_height) in
  let clip_id := String.append "clip-" chrom in
  u <- svg_check_name clip_id ;;
  genes <- dict_lookup chrom genes_data ;;
  rects <- mapR (gene_rect st y chr_len chr_width) genes ;;
  snps <- dict_lookup chrom snps_data ;;
  points <- mapR (snp_point st y chr_len chr_width) snps ;;
  let y_axis_x := Qz margin_side - 10 in
  y_top <- py_min qltb (map snd points) ;;
  let y_bottom := Qz y - 30 in
  ret (mk_track chr_shape clip_id rects points
         (mk_line y_axis_x y_top y_axis_x y_bottom)
         (mk_line (Qz margin_side) y_bottom (Qz margin_side + chr_width) y_bottom)
         (mk_text chrom (Qz margin_side - 20) (Qz y + Qz chr_height / 2 + 5))).

Fixpoint render_tracks (st : setup) (genes_data snps_data : dict (list record))
    (i : nat) (chroms : list string) : R (list track) :=
  match chroms with
  | [] => ret []
  | c :: rest =>
      t <- render_track st genes_data snps_data i c ;;
      ts <- render_tracks st genes_data snps_data (S i) rest ;;
      ret (t :: ts)
  end.

(* ------------------------------------------------------------------ *)
(** ** Ruler, legend and the whole function *)

Definition ruler (svg_height max_chr_len : Z) : list tick :=
  let scale_y := Qz svg_height - Qz margin_bottom / 2 in
  map (fun i =>
         let x := Qz margin_side + Qz (Z.of_nat i) * Qz (svg_width - 2 * margin_side) / 5 in
         mk_tick (mk_line x scale_y x (scale_y + 5))
                 (Qz (Z.of_nat i) * Qz max_chr_len / 5 / 1000000) x (scale_y + 20))
      (seq 0 6).

Definition heatmap_scale_width : Z := 100.
Definition heatmap_scale_height : Z := 20.

Definition legend : list rect :=
  let n := Qz (Z.of_nat (List.length colors)) in
  map (fun ic =>
         let '(i, color) := ic in
         mk_rect (Qz (svg_width - margin_side - heatmap_scale_width) + Qz (Z.of_nat i) * Qz heatmap_scale_width / n)
                 (Qz margin_top / 2) (Qz heatmap_scale_width / n) (Qz heatmap_scale_height) color)
      (combine (seq 0 (List.length colors)) colors).

(** [create_visualization] after both files were read. *)
Definition render (sqrt : Q -> Q) (genes_data snps_data : dict (list record)) : R drawing :=
  st <- compute_setup sqrt genes_data snps_data ;;
  let svg_height := (Z.of_nat (List.length (s_chromosomes st)) * (chr_height + chr_spacing)
                     + margin_top + margin_bottom)%Z in
  tracks <- render_tracks st genes_data snps_data 0 (s_chromosomes st) ;;
  let label_y := Qz margin_top / 2 + Qz heatmap_scale_height + 15 in
  ret (mk_drawing svg_width svg_height tracks (ruler svg_height (s_max_chr_len st)) legend
         (mk_text "Min" (Qz (svg_width - margin_side - heatmap_scale_width)) label_y)
         (mk_text "Max" (Qz (svg_width - margin_side)) label_y)).

(** [create_visualization(genes_file, snps_file, output_file)], given the
    lines of the two input files; [inr d] is the drawing that [dwg.save()]
    writes. *)
Definition create_visualization (py_float : string -> option Q) (sqrt : Q -> Q)
    (genes_lines snps_lines : list string) : R drawing :=
  genes_data <- read_data py_float genes_lines ;;
  snps_data <- read_data py_float snps_lines ;;
  render sqrt genes_data snps_data.

(* ------------------------------------------------------------------ *)
(** ** The two helpers defined before [create_visualization] *)

(** [get_chromosome_length(data)] on one chromosome's record list:
    [max(end for _, end, _ in data)].  The script defines it but never calls
    it; [create_visualization] repeats its body at line 52. *)
Definition get_chromosome_length (data : list record) : R Z :=
  py_max Z.ltb (map rec_end data).

(** The commands of an SVG path; [ArcTo rx ry rot large sweep x y] is
    [A rx,ry rot large sweep x,y].  Coordinates are kept as numbers (the
    f-strings print them with [str()]). *)
Inductive path_cmd :=
| MoveTo (x y : Q)
| LineTo (x y : Q)
| ArcTo (rx ry : Q) (rotation large_arc sweep : Z) (x y : Q)
| ClosePath.

(** [create_chromosome_shape(x, y, width, height)]: the [d] attribute of the
    path, command by command ([M], [L], [A], [L], [A], [Z]). *)
Definition create_chromosome_shape (x y width height : Q) : list path_cmd :=
  let radius := height / 2 in
  [MoveTo (x + radius) y;
   LineTo (x + width - radius) y;
   ArcTo radius radius 0%Z 0%Z 1%Z (x + width - radius) (y + height);
   LineTo (x + radius) (y + height);
   ArcTo radius radius 0%Z 0%Z 1%Z (x + radius) y;
   ClosePath].

(** The outline of a track's shape: [create_chromosome_shape] on the
    arguments of the call at line 69. *)
Definition outline (p : path) : list path_cmd :=
  create_chromosome_shape (px p) (py p) (pw p) (ph p).

(** What one line of an input table contributes, read off lines 12 and 15:
    [line.strip().split()] must give four fields, then [int(start)],
    [int(end)] and [float(value)] must succeed. *)
Definition parse_line (py_float : string -> option Q) (line : string) : option (string * record) :=
  match py_split line with
  | [chrom; start; end_; value] =>
      match py_int start, py_int end_, py_float value with
      | Some s, Some e, Some v => Some (chrom, (s, e, v))
      | _, _, _ => None
      end
  | _ => None
  end.

(** The records of chromosome [c] among parsed lines, in file order. *)
Definition records_of (c : string) (parsed : list (string * record)) : list record :=
  map snd (filter (fun p => String.eqb (fst p) c) parsed).

(** [None] for no records, as a dict lookup of an absent key. *)
Definition nonempty_opt {A} (l : list A) : option (list A) :=
  match l with [] => None | _ => Some l end.

(** The chromosome names of parsed lines, each once, in order of first
    appearance. *)
Definition first_appearance (cs : list string) : list string :=
  rev (nodup string_dec (rev cs)).

(* ------------------------------------------------------------------ *)
(** ** Concrete [float()] and square root used to run the model *)

Fixpoint frac_digits (l : list ascii) (num : Z) (den : positive) : option Q :=
  match l with
  | [] => Some (num # den)
  | c :: r => if is_digit c then frac_digits r (num * 10 + digit_val c)%Z (den * 10)%positive else None
  end.

Fixpoint int_digits (l : list ascii) (num : Z) (seen : bool) : option Q :=
  match l with
  | [] => if seen then Some (num # 1) else None
  | c :: r =>
      if is_digit c then int_digits r (num * 10 + digit_val c)%Z true
      else if Ascii.eqb c "."%char then
        match r with
        | [] => if seen then Some (num # 1) else None
        | _ => frac_digits r num 1
        end
      else None
  end.

(** [float(s)] on plain decimal literals ([-1.5], [10.0], [7]); exponents,
    [inf] and [nan] are left out. *)
Definition py_float_dec (s : string) : option Q :=
  match strip (list_ascii_of_string s) with
  | c :: r =>
      if Ascii.eqb c "-"%char then option_map Qopp (int_digits r 0 false)
      else if Ascii.eqb c "+"%char then int_digits r 0 false
      else int_digits (c :: r) 0 false
  | [] => None
  end.

(** A square root on rationals, exact on squares of rationals in lowest terms. *)
Definition qsqrt (q : Q) : Q := Z.sqrt (Qnum q * Zpos (Qden q)) # Qden q.

(* ------------------------------------------------------------------ *)
(** ** Concrete inputs *)

Definition run_or {A} (dflt : A) (r : R A) : A :=
  match r with inr a => a | inl _ => dflt end.

Definition no_setup : setup := mk_setup [] [] 0 0 0 0.
Definition no_drawing : drawing :=
  mk_drawing 0 0 [] [] [] (mk_text "" 0 0) (mk_text "" 0 0).
Definition no_track : track :=
  mk_track (mk_path 0 0 0 0) "" [] [] (mk_line 0 0 0 0) (mk_line 0 0 0 0) (mk_text "" 0 0).

(** One chromosome, three genes of values 0, 1, 2 (mean 1, stdev 1) and the
    two SNPs [chr1 1000 1000 10.0] and [chr1 2000 2000 20.0]. *)
Definition one_chr_gene_lines : list string :=
  ["chr1 1 1000 0.0"; "chr1 1001 2000 1.0"; "chr1 2001 3000 2.0"]%string.
Definition one_chr_snp_lines : list string :=
  ["chr1 1000 1000 10.0"; "chr1 2000 2000 20.0"]%string.

Definition one_chr_genes : dict (list record) :=
  Eval vm_compute in run_or [] (read_data py_float_dec one_chr_gene_lines).
Definition one_chr_snps : dict (list record) :=
  Eval vm_compute in run_or [] (read_data py_float_dec one_chr_snp_lines).
Definition one_chr_setup : setup :=
  Eval vm_compute in run_or no_setup (compute_setup qsqrt one_chr_genes one_chr_snps).
Definition one_chr_drawing : drawing :=
  Eval vm_compute in run_or no_drawing (render qsqrt one_chr_genes one_chr_snps).
Definition one_chr_track : track := nth 0 (d_tracks one_chr_drawing) no_track.

(** Two chromosomes, [chr2] absent from the SNP file. *)
Definition two_chr_gene_lines : list string :=
  ["chr1 1 1000 0.0"; "chr1 1001 2000 1.0"; "chr2 1 1500 2.0"]%string.
Definition two_chr_genes : dict (list record) :=
  Eval vm_compute in run_or [] (read_data py_float_dec two_chr_gene_lines).

(** Gene coordinates below zero, which [read_data] accepts. *)
Definition neg_gene_lines : list string :=
  ["chr1 -10 -5 0.0"; "chr2 -20 -10 1.0"; "chr2 -30 -20 2.0"]%string.
Definition neg_snp_lines : list string := ["chr1 1 1 1.0"; "chr2 1 1 1.0"]%string.
Definition neg_genes : dict (list record) :=
  Eval vm_compute in run_or [] (read_data py_float_dec neg_gene_lines).
Definition neg_snps : dict (list record) :=
  Eval vm_compute in run_or [] (read_data py_float_dec neg_snp_lines).
Definition neg_setup : setup :=
  Eval vm_compute in run_or no_setup (compute_setup qsqrt neg_genes neg_snps).
Definition neg_drawing : drawing :=
  Eval vm_compute in run_or no_drawing (render qsqrt neg_genes neg_snps).


(** A single gene record. *)
Definition single_gene_lines : list string := ["chr1 1 10 5.0"]%string.
Definition single_genes : dict (list record) :=
  Eval vm_compute in run_or [] (read_data py_float_dec single_gene_lines).

(** Two chromosomes with SNPs on both; the SNP at 1600 on [chr2] lies past
    its last gene end (1500). *)
Definition two_chr_ok_snp_lines : list string :=
  ["chr1 1000 1000 10.0"; "chr2 500 500 20.0"; "chr2 1600 1600 5.0"]%string.
Definition two_chr_ok_snps : dict (list record) :=
  Eval vm_compute in run_or [] (read_data py_float_dec two_chr_ok_snp_lines).
Definition two_chr_ok_setup : setup :=
  Eval vm_compute in run_or no_setup (compute_setup qsqrt two_chr_genes two_chr_ok_snps).
Definition two_chr_ok_drawing : drawing :=
  Eval vm_compute in run_or no_drawing (render qsqrt two_chr_genes two_chr_ok_snps).

(** A chromosome whose gene ends are all 0. *)
Definition zero_gene_lines : list string := ["chr1 -5 0 1.0"; "chr1 -3 0 2.0"]%string.
Definition zero_genes : dict (list record) :=
  Eval vm_compute in run_or [] (read_data py_float_dec zero_gene_lines).

(** The [chr2] track of [two_chr_ok_drawing]. *)
Definition two_chr_ok_track : track := nth 1 (d_tracks two_chr_ok_drawing) no_track.

(** Three chromosomes, two of which ([chr01] and [chr1]) have the same
    integer suffix. *)
Definition tie_gene_lines : list string :=
  ["chr2 1 10 1.0"; "chr01 1 20 2.0"; "chr1 5 30 3.0"]%string.
Definition tie_snp_lines : list string :=
  ["chr2 1 1 1.0"; "chr01 1 1 2.0"; "chr1 2 2 3.0"]%string.
Definition tie_genes : dict (list record) :=
  Eval vm_compute in run_or [] (read_data py_float_dec tie_gene_lines).
Definition tie_snps : dict (list record) :=
  Eval vm_compute in run_or [] (read_data py_float_dec tie_snp_lines).
Definition tie_drawing : drawing :=
  Eval vm_compute in run_or no_drawing (render qsqrt tie_genes tie_snps).

(** A chromosome name with a parenthesis, which [int(name[3:])] accepts. *)
Definition paren_gene_lines : list string := ["c(r1 1 10 1.0"; "c(r1 11 20 2.0"]%string.
Definition paren_snp_lines : list string := ["c(r1 1 1 1.0"]%string.
Definition paren_genes : dict (list record) :=
  Eval vm_compute in run_or [] (read_data py_float_dec paren_gene_lines).

(* ================================================================== *)
(** * Properties *)

(* ------------------------------------------------------------------ *)
(** ** Dicts *)

Lemma dict_set_absent {V} (k : string) (v : V) (d : dict V) :
  dict_get k d = None -> dict_set k v d = d ++ [(k, v)].
Proof.
  induction d as [|[k' v'] d IH]; simpl; intros H; [reflexivity|].
  destruct (String.eqb k k'); [discriminate|].
  rewrite IH by exact H; reflexivity.
Qed.

Lemma dict_set_in {V} (k k0 : string) (v v0 : V) (d : dict V) :
  In (k0, v0) (dict_set k v d) -> v0 = v \/ In (k0, v0) d.
Proof.
  induction d as [|[k' v'] d IH]; simpl.
  - intros [H|[]]; inversion H; auto.
  - destruct (String.eqb k k'); simpl.
    + intros [H|H]; [inversion H; auto | auto].
    + intros [H|H]; [auto|]. destruct (IH H); auto.
Qed.

Lemma dict_get_set {V} (k c : string) (v : V) (d : dict V) :
  dict_get c (dict_set k v d) = if String.eqb c k then Some v else dict_get c d.
Proof.
  induction d as [|[k' v'] d IH]; simpl.
  - reflexivity.
  - destruct (String.eqb k k') eqn:E; simpl.
    + apply String.eqb_eq in E; subst k'.
      destruct (String.eqb c k); reflexivity.
    + rewrite IH. destruct (String.eqb c k) eqn:E1, (String.eqb c k') eqn:E2; auto.
      apply String.eqb_eq in E1, E2; subst. rewrite String.eqb_refl in E; discriminate.
Qed.

Lemma dict_get_in {V} (k : string) (v : V) (d : dict V) :
  dict_get k d = Some v -> In (k, v) d.
Proof.
  induction d as [|[k' v'] d IH]; simpl; [discriminate|].
  destruct (String.eqb k k') eqn:E; intros H.
  - apply String.eqb_eq in E; inversion H; subst; auto.
  - auto.
Qed.

Lemma dict_get_key {V} (k : string) (d : dict V) :
  In k (dict_keys d) -> exists v, dict_get k d = Some v.
Proof.
  induction d as [|[k' v'] d IH]; simpl; [tauto|].
  destruct (String.eqb k k') eqn:E; [eauto|].
  intros [H|H]; [subst; rewrite String.eqb_refl in E; discriminate | auto].
Qed.

(* ------------------------------------------------------------------ *)
(** ** read_data never leaves an empty record list *)

Definition all_nonempty (d : dict (list record)) : Prop :=
  forall k l, In (k, l) d -> l <> [].

Lemma dict_set_app_absent {V} (k : string) (v w : V) (d : dict V) :
  dict_get k d = None -> dict_set k v (d ++ [(k, w)]) = d ++ [(k, v)].
Proof.
  induction d as [|[k' v'] d IH]; simpl; intros H.
  - rewrite String.eqb_refl; reflexivity.
  - destruct (String.eqb k k'); [discriminate|]. rewrite IH by exact H; reflexivity.
Qed.

Lemma dict_get_app_absent {V} (k : string) (w : V) (d : dict V) :
  dict_get k d = None -> dict_get k (d ++ [(k, w)]) = Some w.
Proof.
  induction d as [|[k' v'] d IH]; simpl; intros H.
  - rewrite String.eqb_refl; reflexivity.
  - destruct (String.eqb k k'); [discriminate|]. auto.
Qed.

Lemma read_line_nonempty py_float data line data' :
  all_nonempty data -> read_line py_float data line = inr data' -> all_nonempty data'.
Proof.
  unfold read_line; intros Hd H.
  destruct (py_split line) as [|chrom [|start [|end_ [|value [|]]]]]; try discriminate.
  destruct (dict_get chrom data) as [old|] eqn:Eg.
  - inv_bind H; inv_bind H; inv_bind H; inv_bind H; inversion H; subst; clear H.
    intros k l Hin. apply dict_set_in in Hin as [->|Hin].
    + destruct a; discriminate.
    + eauto.
  - rewrite (dict_set_absent chrom []) in H by exact Eg.
    unfold dict_lookup in H; rewrite dict_get_app_absent in H by exact Eg; simpl in H.
    inv_bind H; inv_bind H; inv_bind H; inversion H; subst; clear H.
    rewrite dict_set_app_absent by exact Eg.
    intros k l Hin. apply in_app_or in Hin as [Hin|[Heq|[]]]; [eauto|].
    inversion Heq; discriminate.
Qed.

Lemma read_lines_nonempty py_float lines data data' :
  all_nonempty data -> read_lines py_float data lines = inr data' -> all_nonempty data'.
Proof.
  revert data; induction lines as [|l ls IH]; simpl; intros data Hd H.
  - inversion H; subst; exact Hd.
  - inv_bind H. eapply IH; [eapply read_line_nonempty|]; eauto.
Qed.

Lemma read_data_nonempty_aux py_float lines d :
  read_data py_float lines = inr d -> all_nonempty d.
Proof. intros H. apply (read_lines_nonempty py_float lines []); [intros ? ? []|exact H]. Qed.

(* ------------------------------------------------------------------ *)
(** ** The stable sort *)

Definition key_le (p q : Z * string) : Prop := (fst p <= fst q)%Z.

Lemma insert_key_perm p l : Permutation (insert_key p l) (p :: l).
Proof.
  induction l as [|q l IH]; simpl; [auto|].
  destruct (fst p <? fst q)%Z; [auto|].
  rewrite IH. apply perm_swap.
Qed.

Lemma insert_key_hd q p l :
  HdRel key_le q l -> key_le q p -> HdRel key_le q (insert_key p l).
Proof.
  destruct l as [|r l]; simpl; intros H Hqp; [auto|].
  destruct (fst p <? fst r)%Z; auto.
  inversion H; subst; constructor; auto.
Qed.

Lemma insert_key_sorted p l : Sorted key_le l -> Sorted key_le (insert_key p l).
Proof.
  induction l as [|q l IH]; simpl; intros H; [auto|].
  destruct (fst p <? fst q)%Z eqn:E.
  - apply Z.ltb_lt in E. constructor; [exact H|]. constructor. unfold key_le; lia.
  - apply Z.ltb_ge in E. inversion H; subst.
    constructor; [auto|]. apply insert_key_hd; auto.
Qed.

Lemma stable_sort_aux l acc :
  Permutation (fold_left (fun acc p => insert_key p acc) l acc) (l ++ acc) /\
  (Sorted key_le acc -> Sorted key_le (fold_left (fun acc p => insert_key p acc) l acc)).
Proof.
  revert acc; induction l as [|p l IH]; simpl; intros acc; [auto|].
  destruct (IH (insert_key p acc)) as [H1 H2]. split.
  - rewrite H1, insert_key_perm. symmetry; apply Permutation_middle.
  - intros Hs. apply H2, insert_key_sorted, Hs.
Qed.

Lemma stable_sort_perm l : Permutation (stable_sort l) l.
Proof. unfold stable_sort. rewrite (proj1 (stable_sort_aux l [])), app_nil_r. reflexivity. Qed.

Lemma stable_sort_sorted l : Sorted key_le (stable_sort l).
Proof. apply (proj2 (stable_sort_aux l [])). constructor. Qed.

(** A successful [sorted(...)]: a permutation of the keys, in non-decreasing
    order of their parsed suffixes. *)
Lemma chromosome_order_inr {V} (g : dict V) l :
  chromosome_order g = inr l ->
  Permutation l (dict_keys g) /\
  exists ks, Forall2 (fun c k => suffix_key c = Some k) l ks /\ Sorted Z.le ks.
Proof.
  unfold chromosome_order; intros H. inv_bind H. inversion H; subst; clear H.
  apply mapR_inr in Ha.
  assert (Hk : map snd a = dict_keys g /\ Forall (fun p => suffix_key (snd p) = Some (fst p)) a).
  { induction Ha as [|c p cs ps Hp _ [IH1 IH2]]; simpl; [auto|].
    unfold parse_field in Hp. destruct (suffix_key c) eqn:E; [|discriminate].
    inversion Hp; subst; simpl. split; [congruence|]. constructor; auto. }
  destruct Hk as [Hk1 Hk2]. split.
  - rewrite <- Hk1. apply Permutation_map, stable_sort_perm.
  - exists (map fst (stable_sort a)). split.
    + assert (Hf : Forall (fun p => suffix_key (snd p) = Some (fst p)) (stable_sort a)).
      { eapply Permutation_Forall; [symmetry; apply stable_sort_perm | exact Hk2]. }
      clear -Hf. induction Hf; simpl; constructor; auto.
    + pose proof (stable_sort_sorted a) as Hs. clear -Hs.
      induction Hs as [|p l Hs IH Hd]; simpl; constructor; auto.
      destruct Hd; simpl; constructor. exact H.
Qed.

(** Any unparsable suffix makes [sorted] raise [ValueError]. *)
Lemma chromosome_order_bad {V} (g : dict V) c :
  In c (dict_keys g) -> suffix_key c = None -> chromosome_order g = inl ValueError.
Proof.
  intros Hin Hc. unfold chromosome_order.
  assert (H : mapR (fun c => k <- parse_field (suffix_key c) ;; ret (k, c)) (dict_keys g) = inl ValueError).
  { induction (dict_keys g) as [|c' cs IH]; simpl in *; [contradiction|].
    destruct Hin as [->|Hin].
    - rewrite Hc; reflexivity.
    - destruct (suffix_key c'); simpl; [|reflexivity]. rewrite IH by exact Hin; reflexivity. }
  rewrite H; reflexivity.
Qed.

(* ------------------------------------------------------------------ *)
(** ** Taking a successful run apart *)

Lemma compute_setup_inr sqrt g s st :
  compute_setup sqrt g s = inr st ->
  chromosome_order g = inr (s_chromosomes st) /\
  chr_lengths_loop g (s_chromosomes st) [] = inr (s_chr_lengths st) /\
  py_max Z.ltb (dict_values (s_chr_lengths st)) = inr (s_max_chr_len st) /\
  py_max qltb (all_values s) = inr (s_max_snp st) /\
  py_mean (all_values g) = inr (s_mean st) /\
  py_stdev sqrt (all_values g) = inr (s_stdev st).
Proof.
  unfold compute_setup; intros H.
  do 6 inv_bind H. inversion H; subst; simpl. repeat split; assumption.
Qed.

Lemma render_inr sqrt g s d :
  render sqrt g s = inr d ->
  exists st, compute_setup sqrt g s = inr st /\
             render_tracks st g s 0 (s_chromosomes st) = inr (d_tracks d).
Proof.
  unfold render; intros H. inv_bind H. inv_bind H. inversion H; subst; simpl. eauto.
Qed.

Lemma py_max_nonempty {A} (ltb : A -> A -> bool) l m : py_max ltb l = inr m -> l <> [].
Proof. destruct l; simpl; discriminate. Qed.

Lemma py_min_nonempty {A} (ltb : A -> A -> bool) l m : py_min ltb l = inr m -> l <> [].
Proof. destruct l; simpl; discriminate. Qed.

Lemma chr_lengths_notin g cs acc cl c :
  chr_lengths_loop g cs acc = inr cl -> ~ In c cs -> dict_get c cl = dict_get c acc.
Proof.
  revert acc; induction cs as [|c0 cs IH]; simpl; intros acc H Hn.
  - inversion H; reflexivity.
  - inv_bind H; inv_bind H.
    rewrite (IH _ H) by (intros Hc; apply Hn; right; exact Hc). rewrite dict_get_set.
    destruct (String.eqb c c0) eqn:E; [|reflexivity].
    apply String.eqb_eq in E; subst; exfalso; apply Hn; left; reflexivity.
Qed.

(** [chr_lengths[chrom]] is the largest [end] among the genes of [chrom]. *)
Lemma chr_lengths_in g cs acc cl c :
  chr_lengths_loop g cs acc = inr cl -> In c cs ->
  exists gl L, dict_get c g = Some gl /\ py_max Z.ltb (map rec_end gl) = inr L /\
               dict_get c cl = Some L.
Proof.
  revert acc; induction cs as [|c0 cs IH]; simpl; intros acc H Hin; [contradiction|].
  inv_bind H; inv_bind H.
  destruct (in_dec string_dec c cs) as [Hc|Hc]; [eapply IH; eauto|].
  destruct Hin as [->|]; [|contradiction].
  unfold dict_lookup in Ha. destruct (dict_get c g) as [gl|] eqn:Eg; [|discriminate].
  inversion Ha; subst a.
  exists gl, a0. repeat split; auto.
  rewrite (chr_lengths_notin _ _ _ _ _ H Hc), dict_get_set, String.eqb_refl. reflexivity.
Qed.

Lemma render_tracks_nth st g s i cs ts :
  render_tracks st g s i cs = inr ts ->
  List.length ts = List.length cs /\
  forall j c t, nth_error cs j = Some c -> nth_error ts j = Some t ->
                render_track st g s (i + j) c = inr t.
Proof.
  revert i ts; induction cs as [|c cs IH]; simpl; intros i ts H.
  - inversion H; subst. split; [reflexivity|]. intros [|j]; discriminate.
  - inv_bind H; inv_bind H. inversion H; subst; clear H.
    destruct (IH _ _ Ha0) as [Hl Hn]. split; [simpl; congruence|].
    intros [|j] c' t' H1 H2; simpl in H1, H2.
    + inversion H1; inversion H2; subst. rewrite Nat.add_0_r. exact Ha.
    + rewrite <- Nat.add_succ_comm. eapply Hn; eauto.
Qed.

Lemma render_tracks_in st g s i cs ts c :
  render_tracks st g s i cs = inr ts -> In c cs ->
  exists j t, render_track st g s j c = inr t.
Proof.
  intros H Hin. apply In_nth_error in Hin as [j Hj].
  destruct (render_tracks_nth _ _ _ _ _ _ H) as [Hl Hn].
  destruct (nth_error ts j) as [t|] eqn:Et.
  - exists (i + j)%nat, t. eauto.
  - apply nth_error_None in Et.
    assert (Hj' : nth_error cs j <> None) by congruence.
    apply nth_error_Some in Hj'. lia.
Qed.

(** What one successful iteration of the chromosome loop drew. *)
Lemma render_track_inr st g s i c t :
  render_track st g s i c = inr t ->
  exists L w gl sl,
    dict_get c (s_chr_lengths st) = Some L /\
    chr_width_of (s_max_chr_len st) L = inr w /\
    dict_get c g = Some gl /\ dict_get c s = Some sl /\
    tr_shape t = mk_path (Qz margin_side) (Qz (track_y i)) w (Qz chr_height) /\
    tr_clip_id t = String.append "clip-" c /\
    mapR (gene_rect st (track_y i) L w) gl = inr (tr_rects t) /\
    mapR (snp_point st (track_y i) L w) sl = inr (tr_points t) /\
    tr_points t <> [] /\
    txt (tr_label t) = c.
Proof.
  unfold render_track, dict_lookup; intros H.
  destruct (dict_get c (s_chr_lengths st)) as [L|] eqn:E1; [|discriminate]. simpl in H.
  inv_bind H. inv_bind H.
  destruct (dict_get c g) as [gl|] eqn:E2; [|discriminate]. simpl in H.
  inv_bind H.
  destruct (dict_get c s) as [sl|] eqn:E3; [|discriminate]. simpl in H.
  inv_bind H. inv_bind H. inversion H; subst; clear H; simpl.
  exists L, a, gl, sl. repeat split; auto.
  intros He; rewrite He in Ha3; discriminate.
Qed.

(** A successful iteration passed svgwrite's check of the clip-path id. *)
Lemma render_track_name st g s i c t :
  render_track st g s i c = inr t -> svg_is_name (String.append "clip-" c) = true.
Proof.
  unfold render_track, dict_lookup; intros H.
  destruct (dict_get c (s_chr_lengths st)) as [L|]; [|discriminate]. simpl in H.
  inv_bind H. inv_bind H. unfold svg_check_name in Ha0.
  destruct (svg_is_name _); [reflexivity|discriminate].
Qed.

Lemma render_tracks_all st g s i cs ts :
  render_tracks st g s i cs = inr ts ->
  Forall (fun t => exists j c, In c cs /\ render_track st g s j c = inr t) ts.
Proof.
  revert i ts; induction cs as [|c cs IH]; simpl; intros i ts H.
  - inversion H; constructor.
  - inv_bind H; inv_bind H. inversion H; subst; clear H. constructor.
    + exists i, c; auto.
    + eapply Forall_impl; [|eapply IH; eauto]. intros t [j [c' [Hc Ht]]]; eauto.
Qed.

(** What [gene_rect] draws for one gene. *)
Lemma gene_rect_inr st y L w r rc :
  gene_rect st y L w r = inr rc ->
  exists fw k, rw rc = py_max2 1 (fw * w) /\
               color_index (min_clamp st) (max_clamp st) (rec_value r) = inr k /\
               py_index colors k = inr (rfill rc) /\ ry rc = Qz y.
Proof.
  destruct r as [[start end_] value]; simpl; intros H.
  do 4 inv_bind H. inversion H; subst; simpl.
  exists a0, a1. repeat split; auto.
Qed.

(* ------------------------------------------------------------------ *)
(** ** Arithmetic of the colour bins *)

Lemma qltb_true a b : qltb a b = true -> a < b.
Proof.
  unfold qltb; intros H. apply negb_true_iff in H.
  apply Qnot_le_lt. intros Hle. apply Qle_bool_iff in Hle. congruence.
Qed.

Lemma qltb_false a b : qltb a b = false -> b <= a.
Proof. unfold qltb; intros H. apply negb_false_iff, Qle_bool_iff in H. exact H. Qed.

Lemma py_max2_ge_l a b : a <= py_max2 a b.
Proof.
  unfold py_max2; destruct (qltb a b) eqn:E; [apply Qlt_le_weak, qltb_true, E | apply Qle_refl].
Qed.

Lemma py_max2_ge_r a b : b <= py_max2 a b.
Proof.
  unfold py_max2; destruct (qltb a b) eqn:E; [apply Qle_refl | apply qltb_false, E].
Qed.

Lemma py_min2_le_r a b : py_min2 a b <= b.
Proof.
  unfold py_min2; destruct (qltb b a) eqn:E; [apply Qle_refl | apply qltb_false, E].
Qed.

Lemma clamp_value_bounds mn mx v :
  mn < mx -> mn <= clamp_value mn mx v /\ clamp_value mn mx v <= mx.
Proof.
  intros Hlt. unfold clamp_value. split; [apply py_max2_ge_r|].
  unfold py_max2. destruct (qltb (py_min2 v mx) mn).
  - apply Qlt_le_weak, Hlt.
  - apply py_min2_le_r.
Qed.

Lemma py_int_of_float_nonneg x : 0 <= x -> (0 <= py_int_of_float x)%Z.
Proof.
  unfold Qle, py_int_of_float; simpl; intros H. apply Z.quot_pos; lia.
Qed.


Lemma color_index_div mn mx v :
  mn < mx ->
  color_index mn mx v =
  ret (let k := py_int_of_float ((clamp_value mn mx v - mn) / (mx - mn) * 5) in
       if (4 <? k)%Z then 4%Z else k).
Proof.
  intros Hlt. unfold color_index, py_div.
  destruct (Qeq_bool (mx - mn) 0) eqn:E; [|reflexivity].
  apply Qeq_bool_iff in E. exfalso. apply (Qlt_not_eq mn mx Hlt).
  apply Qplus_inj_r with (- mn). rewrite Qplus_opp_r. symmetry; exact E.
Qed.

Lemma clamped_ratio_nonneg mn mx v :
  mn < mx -> 0 <= (clamp_value mn mx v - mn) / (mx - mn) * 5.
Proof.
  intros Hlt. destruct (clamp_value_bounds mn mx v Hlt) as [H1 _].
  apply Qmult_le_0_compat; [|lra].
  apply Qle_shift_div_l; lra.
Qed.

Lemma palette_index k : (0 <= k <= 4)%Z ->
  exists col, py_index colors k = inr col /\ nth_error colors (Z.to_nat k) = Some col.
Proof.
  intros Hk.
  assert (k = 0%Z \/ k = 1%Z \/ k = 2%Z \/ k = 3%Z \/ k = 4%Z) as [-> | [-> | [-> | [-> | ->]]]] by lia;
    eexists; split; reflexivity.
Qed.


Ltac qltb_cases :=
  repeat match goal with
         | |- context [qltb ?a ?b] =>
             let E := fresh "E" in
             destruct (qltb a b) eqn:E;
             [apply qltb_true in E | apply qltb_false in E]
         end.



Lemma Forall2_in_r {A B} (P : A -> B -> Prop) xs ys y :
  Forall2 P xs ys -> In y ys -> exists x, In x xs /\ P x y.
Proof.
  induction 1 as [|x y' xs ys Hxy _ IH]; simpl; [tauto|].
  intros [<-|Hin]; [eauto|]. destruct (IH Hin) as [x' [? ?]]; eauto.
Qed.

(** Every rectangle of a successful run comes from [gene_rect] on a gene of
    the drawn chromosome. *)
Lemma render_rect_origin sqrt g s d t rc :
  render sqrt g s = inr d -> In t (d_tracks d) -> In rc (tr_rects t) ->
  exists st c gl r y L w,
    compute_setup sqrt g s = inr st /\ dict_get c g = Some gl /\ In r gl /\
    gene_rect st y L w r = inr rc.
Proof.
  intros H Ht Hrc. destruct (render_inr _ _ _ _ H) as [st [Hs Htr]].
  apply render_tracks_all in Htr. rewrite Forall_forall in Htr.
  destruct (Htr t Ht) as [j [c [_ Hj]]].
  destruct (render_track_inr _ _ _ _ _ _ Hj) as [L [w [gl [sl [_ [_ [Hg [_ [_ [_ [Hr _]]]]]]]]]]].
  apply mapR_inr in Hr. destruct (Forall2_in_r _ _ _ _ Hr Hrc) as [r [Hin Hgr]].
  exists st, c, gl, r, (track_y j), L, w. auto.
Qed.

(** One polyline point: its height above the track. *)
Lemma snp_point_inr st y L w r p :
  snp_point st y L w r = inr p ->
  snd p = Qz y - 30 - (rec_value r / s_max_snp st) * 100.
Proof.
  destruct r as [[start end_] value]; simpl; intros H.
  inv_bind H. unfold py_div in H.
  destruct (Qeq_bool (s_max_snp st) 0); [discriminate|].
  simpl in H. inversion H; reflexivity.
Qed.

Lemma compute_setup_fun sqrt g s st st' :
  compute_setup sqrt g s = inr st -> compute_setup sqrt g s = inr st' -> st' = st.
Proof. intros H1 H2; rewrite H1 in H2; inversion H2; reflexivity. Qed.

Lemma render_tracks_shapes st st' g s s' i cs ts ts' :
  s_chr_lengths st' = s_chr_lengths st -> s_max_chr_len st' = s_max_chr_len st ->
  render_tracks st g s i cs = inr ts -> render_tracks st' g s' i cs = inr ts' ->
  map tr_shape ts' = map tr_shape ts.
Proof.
  intros E1 E2. revert i ts ts'; induction cs as [|c cs IH]; simpl; intros i ts ts' H H'.
  - inversion H; inversion H'; reflexivity.
  - inv_bind H; inv_bind H; inv_bind H'; inv_bind H'.
    inversion H; inversion H'; subst; simpl. f_equal; [|eauto].
    destruct (render_track_inr _ _ _ _ _ _ Ha) as [L [w [_ [_ [HL [Hw [_ [_ [Hsh _]]]]]]]]].
    destruct (render_track_inr _ _ _ _ _ _ Ha1) as [L' [w' [_ [_ [HL' [Hw' [_ [_ [Hsh' _]]]]]]]]].
    rewrite E1, HL in HL'. inversion HL'; subst L'.
    rewrite E2, Hw in Hw'. inversion Hw'; subst w'. congruence.
Qed.

(* ------------------------------------------------------------------ *)
(** ** Helpers for the failure claims *)

Lemma Qz_nz z : z <> 0%Z -> ~ Qz z == 0.
Proof. unfold Qz, Qeq; simpl; lia. Qed.

Lemma py_div_nz a b : ~ b == 0 -> py_div a b = inr (a / b).
Proof.
  intros Hb. unfold py_div. destruct (Qeq_bool b 0) eqn:E; [|reflexivity].
  apply Qeq_bool_iff in E. contradiction.
Qed.


Lemma color_index_range mn mx value :
  mn < mx ->
  exists k, color_index mn mx value = inr k /\ (0 <= k <= 4)%Z /\
            exists col, py_index colors k = inr col.
Proof.
  intros Hlt. rewrite color_index_div by exact Hlt. simpl.
  set (k := py_int_of_float _).
  assert (Hk : (0 <= k)%Z) by (apply py_int_of_float_nonneg, clamped_ratio_nonneg, Hlt).
  exists (if (4 <? k)%Z then 4%Z else k). split; [reflexivity|].
  assert (Hr : (0 <= (if (4 <? k)%Z then 4 else k) <= 4)%Z) by (destruct (Z.ltb_spec 4 k); lia).
  split; [exact Hr|]. destruct (palette_index _ Hr) as [col [Hc _]]; eauto.
Qed.



(** A successful run drew a first chromosome. *)
Lemma render_first sqrt g s d st :
  render sqrt g s = inr d -> compute_setup sqrt g s = inr st ->
  exists c rest t gl L, s_chromosomes st = c :: rest /\ render_track st g s 0 c = inr t /\
    dict_get c g = Some gl /\ py_max Z.ltb (map rec_end gl) = inr L.
Proof.
  intros Hd Hs.
  destruct (render_inr _ _ _ _ Hd) as [st' [Hs' Htr]].
  pose proof (compute_setup_fun _ _ _ _ _ Hs Hs'); subst st'.
  destruct (compute_setup_inr _ _ _ _ Hs) as [_ [Hcl [Hm _]]].
  destruct (s_chromosomes st) as [|c rest] eqn:Ec.
  - simpl in Hcl. inversion Hcl as [Hcl']. rewrite <- Hcl' in Hm. discriminate.
  - simpl in Htr. inv_bind Htr.
    destruct (chr_lengths_in _ _ _ _ c Hcl) as [gl [L [Hg [HL _]]]]; [left; reflexivity|].
    exists c, rest, a, gl, L. auto.
Qed.

(** The three degenerate inputs of the statistics make [render] raise. *)
Lemma render_degenerate_fails sqrt g s :
  (List.length (all_values g) = 1%nat \/
   (exists sd, py_stdev sqrt (all_values g) = inr sd /\ sd == 0) \/
   (exists m, py_max qltb (all_values s) = inr m /\ m == 0)) ->
  forall d, render sqrt g s <> inr d.
Proof.
  intros Hc d Hd.
  destruct (render_inr _ _ _ _ Hd) as [st [Hs _]].
  destruct (compute_setup_inr _ _ _ _ Hs) as [_ [_ [_ [Hsnp [_ Hsd]]]]].
  destruct (render_first _ _ _ _ _ Hd Hs) as [c [rest [t [gl [L [_ [Ht [Hg HL]]]]]]]].
  destruct (render_track_inr _ _ _ _ _ _ Ht)
    as [L' [w [gl' [sl [_ [_ [Hg' [_ [_ [_ [Hr [Hp [Hpne _]]]]]]]]]]]]].
  rewrite Hg in Hg'. inversion Hg'; subst gl'.
  destruct Hc as [H1|[[sd [H2 H2']]|[m [H3 H3']]]].
  - unfold py_stdev in Hsd. rewrite H1 in Hsd. discriminate.
  - rewrite H2 in Hsd. inversion Hsd; subst sd.
    destruct gl as [|r gl]; [discriminate|].
    simpl in Hr. inv_bind Hr.
    destruct (gene_rect_inr _ _ _ _ _ _ Ha) as [fw [k [_ [Hk _]]]].
    unfold color_index, py_div in Hk.
    destruct (Qeq_bool (max_clamp st - min_clamp st) 0) eqn:E; [discriminate|].
    apply Qeq_bool_neq in E. apply E. unfold max_clamp, min_clamp. lra.
  - rewrite H3 in Hsnp. inversion Hsnp as [Hm]. rewrite Hm in H3'.
    destruct sl as [|r sl]; [simpl in Hp; inversion Hp as [Hp']; rewrite <- Hp' in Hpne; contradiction|].
    simpl in Hp. inv_bind Hp.
    destruct r as [[start end_] value]; simpl in Ha. inv_bind Ha.
    unfold py_div in Ha. destruct (Qeq_bool (s_max_snp st) 0) eqn:E; [discriminate|].
    apply Qeq_bool_neq in E. contradiction.
Qed.

(* ================================================================== *)
(** * The claims *)

(** C8: whenever [max_clamp > min_clamp], the colour index
    [min(int((clamped_value - min_clamp) / (max_clamp - min_clamp) * len(colors)), len(colors) - 1)]
    is computed without error, lies in [0, 4] (never negative), and indexing
    the 5-colour palette with it succeeds. *)
Theorem color_index_in_range (mn mx value : Q) :
  mn < mx ->
  exists k, color_index mn mx value = inr k /\ (0 <= k <= 4)%Z /\
            exists col, py_index colors k = inr col.
Proof. exact (color_index_range mn mx value). Qed.


(** C4: in every drawn heatmap, every gene rectangle is at least 1 pixel wide
    ([width = max(1, ...)]). *)
Theorem rect_width_at_least_one sqrt g s d :
  render sqrt g s = inr d ->
  forall t, In t (d_tracks d) -> forall rc, In rc (tr_rects t) -> 1 <= rw rc.
Proof.
  intros H t Ht rc Hrc.
  destruct (render_rect_origin _ _ _ _ _ _ H Ht Hrc)
    as [st [c [gl [r [y [L [w [_ [_ [_ Hgr]]]]]]]]]].
  destruct (gene_rect_inr _ _ _ _ _ _ Hgr) as [fw [k [Hw _]]].
  rewrite Hw. apply py_max2_ge_l.
Qed.

(** C2: the polyline point of every SNP record of a drawn chromosome sits at
    [y - 30 - (value / max_snp_value) * 100], [y] being the track's offset
    (the top of its shape); for two SNPs of values 10.0 and 20.0 with global
    maximum 20.0 the points are 50 and 100 pixels above the baseline [y - 30]. *)
Theorem snp_point_heights sqrt g s d st :
  render sqrt g s = inr d -> compute_setup sqrt g s = inr st ->
  forall j c t, nth_error (s_chromosomes st) j = Some c -> nth_error (d_tracks d) j = Some t ->
  py (tr_shape t) = Qz (track_y j) /\
  exists sl, dict_get c s = Some sl /\
    Forall2 (fun r p => snd p == py (tr_shape t) - 30 - (rec_value r / s_max_snp st) * 100)
            sl (tr_points t) /\
    (forall r1 r2, sl = [r1; r2] -> rec_value r1 == 10 -> rec_value r2 == 20 ->
       s_max_snp st == 20 ->
       exists p1 p2, tr_points t = [p1; p2] /\
         snd p1 == (py (tr_shape t) - 30) - 50 /\ snd p2 == (py (tr_shape t) - 30) - 100).
Proof.
  intros Hd Hs j c t Hc Ht.
  destruct (render_inr _ _ _ _ Hd) as [st' [Hs' Htr]].
  pose proof (compute_setup_fun _ _ _ _ _ Hs Hs'); subst st'.
  destruct (render_tracks_nth _ _ _ _ _ _ Htr) as [_ Hn].
  specialize (Hn _ _ _ Hc Ht). simpl in Hn.
  destruct (render_track_inr _ _ _ _ _ _ Hn)
    as [L [w [gl [sl [_ [_ [_ [Hsl [Hsh [_ [_ [Hp _]]]]]]]]]]]].
  rewrite Hsh; simpl. split; [reflexivity|].
  apply mapR_inr in Hp.
  assert (Hf : Forall2 (fun r p => snd p == Qz (track_y j) - 30 - (rec_value r / s_max_snp st) * 100)
                       sl (tr_points t)).
  { eapply Forall2_impl; [|exact Hp]. intros r p Hr.
    rewrite (snp_point_inr _ _ _ _ _ _ Hr). reflexivity. }
  exists sl. split; [exact Hsl|]. split; [exact Hf|].
  intros r1 r2 -> H1 H2 Hm.
  inversion Hf as [|? p1 ? ps Hp1 Hf1]; subst.
  inversion Hf1 as [|? p2 ? ps' Hp2 Hf2]; subst.
  inversion Hf2; subst.
  exists p1, p2. split; [reflexivity|].
  rewrite H1, Hm in Hp1. rewrite H2, Hm in Hp2.
  split; [rewrite Hp1 | rewrite Hp2]; field.
Qed.

(** C3: a successful run draws exactly the keys of the gene dict, each once,
    in non-decreasing order of the integer [int(name[3:])]; a key whose
    suffix after the first 3 characters does not parse as an integer makes
    the run raise [ValueError]. *)
Theorem chromosome_render_order sqrt g s :
  (forall d, render sqrt g s = inr d ->
     Permutation (map (fun t => txt (tr_label t)) (d_tracks d)) (dict_keys g) /\
     exists ks, Forall2 (fun c k => suffix_key c = Some k)
                        (map (fun t => txt (tr_label t)) (d_tracks d)) ks /\
                Sorted Z.le ks) /\
  (forall c, In c (dict_keys g) -> suffix_key c = None -> render sqrt g s = inl ValueError).
Proof.
  split.
  - intros d Hd. destruct (render_inr _ _ _ _ Hd) as [st [Hs Htr]].
    destruct (compute_setup_inr _ _ _ _ Hs) as [Ho _].
    assert (Hl : map (fun t => txt (tr_label t)) (d_tracks d) = s_chromosomes st).
    { revert Htr. generalize (d_tracks d) 0%nat. clear.
      induction (s_chromosomes st) as [|c cs IH]; simpl; intros ts i H.
      - inversion H; reflexivity.
      - inv_bind H; inv_bind H. inversion H; subst; simpl.
        destruct (render_track_inr _ _ _ _ _ _ Ha) as [? [? [? [? [_ [_ [_ [_ [_ [_ [_ [_ [_ Hlab]]]]]]]]]]]]].
        rewrite Hlab. f_equal. eauto. }
    rewrite Hl. apply chromosome_order_inr, Ho.
  - intros c Hin Hc. unfold render, compute_setup.
    rewrite (chromosome_order_bad _ _ Hin Hc). reflexivity.
Qed.

(** C6: a drawn chromosome's length is the largest [end] among its own gene
    records, the global maximum is the largest of these lengths, the shape
    width is computed from them, and the SNP dict changes none of them. *)
Theorem chr_length_from_genes sqrt g s d st :
  render sqrt g s = inr d -> compute_setup sqrt g s = inr st ->
  (forall c, In c (s_chromosomes st) ->
     exists gl L, dict_get c g = Some gl /\ py_max Z.ltb (map rec_end gl) = inr L /\
                  dict_get c (s_chr_lengths st) = Some L) /\
  py_max Z.ltb (dict_values (s_chr_lengths st)) = inr (s_max_chr_len st) /\
  (forall j c t, nth_error (s_chromosomes st) j = Some c -> nth_error (d_tracks d) j = Some t ->
     exists L, dict_get c (s_chr_lengths st) = Some L /\
               chr_width_of (s_max_chr_len st) L = inr (pw (tr_shape t))) /\
  (forall s' d' st', render sqrt g s' = inr d' -> compute_setup sqrt g s' = inr st' ->
     s_chr_lengths st' = s_chr_lengths st /\ s_max_chr_len st' = s_max_chr_len st /\
     map tr_shape (d_tracks d') = map tr_shape (d_tracks d)).
Proof.
  intros Hd Hs.
  destruct (compute_setup_inr _ _ _ _ Hs) as [Ho [Hcl [Hm _]]].
  destruct (render_inr _ _ _ _ Hd) as [st0 [Hs0 Htr]].
  pose proof (compute_setup_fun _ _ _ _ _ Hs Hs0); subst st0.
  split; [intros c Hc; eapply chr_lengths_in; eauto|].
  split; [exact Hm|]. split.
  - intros j c t Hc Ht.
    destruct (render_tracks_nth _ _ _ _ _ _ Htr) as [_ Hn].
    specialize (Hn _ _ _ Hc Ht).
    destruct (render_track_inr _ _ _ _ _ _ Hn) as [L [w [_ [_ [HL [Hw [_ [_ [Hsh _]]]]]]]]].
    exists L. rewrite Hsh. simpl. auto.
  - intros s' d' st' Hd' Hs'.
    destruct (compute_setup_inr _ _ _ _ Hs') as [Ho' [Hcl' [Hm' _]]].
    rewrite Ho in Ho'. inversion Ho' as [Hc]. rewrite <- Hc in Hcl'.
    rewrite Hcl in Hcl'. inversion Hcl' as [Hl]. rewrite <- Hl in Hm'.
    rewrite Hm in Hm'. inversion Hm' as [Hmx].
    split; [reflexivity|]. split; [reflexivity|].
    destruct (render_inr _ _ _ _ Hd') as [st1 [Hs1 Htr']].
    pose proof (compute_setup_fun _ _ _ _ _ Hs' Hs1); subst st1.
    rewrite <- Hc in Htr'.
    eapply render_tracks_shapes; [| |exact Htr|exact Htr']; congruence.
Qed.

(* ------------------------------------------------------------------ *)
(** ** Remaining claims *)

(** C7 (as amended): for a fixed positive global maximum length the width
    [(svg_width - 2 * margin_side) * (chr_len / max_chr_len)] is computed
    without error and is non-decreasing in the chromosome length. *)
Theorem chr_width_monotone (max_chr_len L1 L2 : Z) :
  (0 < max_chr_len)%Z -> (L1 <= L2)%Z ->
  exists w1 w2, chr_width_of max_chr_len L1 = inr w1 /\
                chr_width_of max_chr_len L2 = inr w2 /\ w1 <= w2.
Proof.
  intros HM HL. unfold chr_width_of.
  rewrite !py_div_nz by (apply Qz_nz; lia). simpl.
  do 2 eexists. split; [reflexivity|]. split; [reflexivity|].
  apply Qmult_le_l; [vm_compute; reflexivity|].
  unfold Qdiv. apply Qmult_le_compat_r.
  - unfold Qle, Qz; simpl; lia.
  - apply Qinv_le_0_compat. unfold Qle, Qz; simpl; lia.
Qed.

(** C7 fails as stated: [read_data] accepts negative coordinates, and then
    the maximum length is negative and the width decreases with the length
    (chr2, shorter at -10, is drawn 2000 wide; chr1, at -5, 1000 wide). *)
Lemma chr_width_negative_max_decreasing :
  render qsqrt neg_genes neg_snps = inr neg_drawing /\
  compute_setup qsqrt neg_genes neg_snps = inr neg_setup /\
  s_max_chr_len neg_setup = (-5)%Z /\
  dict_get "chr1" (s_chr_lengths neg_setup) = Some (-5)%Z /\
  dict_get "chr2" (s_chr_lengths neg_setup) = Some (-10)%Z /\
  map (fun t => pw (tr_shape t)) (d_tracks neg_drawing) = [5000 # 5; 10000 # 5] /\
  ~ (forall M L1 L2 w1 w2, (L1 <= L2)%Z -> chr_width_of M L1 = inr w1 ->
       chr_width_of M L2 = inr w2 -> w1 <= w2).
Proof.
  repeat split; try (vm_compute; reflexivity).
  intros H.
  specialize (H (-5)%Z (-10)%Z (-5)%Z (10000 # 5) (5000 # 5)).
  assert (Hc : 10000 # 5 <= 5000 # 5) by (apply H; [lia | vm_compute; reflexivity | vm_compute; reflexivity]).
  vm_compute in Hc. apply Hc. reflexivity.
Qed.

(** C9: every key of a dict returned by [read_data] maps to a non-empty list
    of records, whatever [float()] accepts; so a chromosome with an empty gene
    list cannot come out of the loader. *)
Theorem read_data_nonempty py_float lines d :
  read_data py_float lines = inr d ->
  (forall k l, In (k, l) d -> l <> []) /\
  (forall k l, dict_get k d = Some l -> l <> []).
Proof.
  intros H.
  assert (Hn : all_nonempty d) by (apply (read_data_nonempty_aux py_float lines d H)).
  split; [exact Hn|]. intros k l Hk. eapply Hn, dict_get_in, Hk.
Qed.

(** C5 (as amended): with a single gene value, a zero sample standard
    deviation, or a zero maximum SNP value, [create_visualization] raises
    before [dwg.save()]: no file is written. *)
Theorem degenerate_inputs_fail py_float sqrt gls sls g s :
  read_data py_float gls = inr g -> read_data py_float sls = inr s ->
  (List.length (all_values g) = 1%nat \/
   (exists sd, py_stdev sqrt (all_values g) = inr sd /\ sd == 0) \/
   (exists m, py_max qltb (all_values s) = inr m /\ m == 0)) ->
  exists e, create_visualization py_float sqrt gls sls = inl e.
Proof.
  intros Hg Hs Hc. unfold create_visualization. rewrite Hg, Hs. simpl.
  destruct (render sqrt g s) as [e|d] eqn:E; [eauto|].
  exfalso. eapply render_degenerate_fails; eauto.
Qed.

(** C5 fails as stated: the error need not be a division by zero or a
    statistics error; here a single gene record with an empty SNP file
    raises [ValueError] ([max()] of no SNP value) first. *)
Lemma degenerate_inputs_value_error :
  read_data py_float_dec single_gene_lines = inr single_genes /\
  List.length (all_values single_genes) = 1%nat /\
  create_visualization py_float_dec qsqrt single_gene_lines [] = inl ValueError.
Proof. repeat split; vm_compute; reflexivity. Qed.



(* ------------------------------------------------------------------ *)
(** ** The claims at concrete inputs *)

Lemma color_index_in_range_witness :
  0 < 1 /\ exists k, color_index 0 1 (1 # 2) = inr k /\ (0 <= k <= 4)%Z /\
                     exists col, py_index colors k = inr col.
Proof.
  split; [vm_compute; reflexivity|].
  apply color_index_in_range. vm_compute; reflexivity.
Defined.


Lemma rect_width_at_least_one_witness :
  render qsqrt one_chr_genes one_chr_snps = inr one_chr_drawing /\
  forall t, In t (d_tracks one_chr_drawing) -> forall rc, In rc (tr_rects t) -> 1 <= rw rc.
Proof.
  assert (H : render qsqrt one_chr_genes one_chr_snps = inr one_chr_drawing)
    by (vm_compute; reflexivity).
  split; [exact H|]. exact (rect_width_at_least_one qsqrt one_chr_genes one_chr_snps one_chr_drawing H).
Defined.

Lemma snp_point_heights_witness :
  render qsqrt one_chr_genes one_chr_snps = inr one_chr_drawing /\
  compute_setup qsqrt one_chr_genes one_chr_snps = inr one_chr_setup /\
  nth_error (s_chromosomes one_chr_setup) 0 = Some "chr1"%string /\
  nth_error (d_tracks one_chr_drawing) 0 = Some one_chr_track /\
  exists p1 p2, tr_points one_chr_track = [p1; p2] /\
    snd p1 == (py (tr_shape one_chr_track) - 30) - 50 /\
    snd p2 == (py (tr_shape one_chr_track) - 30) - 100.
Proof.
  assert (H1 : render qsqrt one_chr_genes one_chr_snps = inr one_chr_drawing) by (vm_compute; reflexivity).
  assert (H2 : compute_setup qsqrt one_chr_genes one_chr_snps = inr one_chr_setup) by (vm_compute; reflexivity).
  assert (H3 : nth_error (s_chromosomes one_chr_setup) 0 = Some "chr1"%string) by (vm_compute; reflexivity).
  assert (H4 : nth_error (d_tracks one_chr_drawing) 0 = Some one_chr_track) by (vm_compute; reflexivity).
  split; [exact H1|]. split; [exact H2|]. split; [exact H3|]. split; [exact H4|].
  destruct (snp_point_heights qsqrt one_chr_genes one_chr_snps one_chr_drawing one_chr_setup
              H1 H2 0 "chr1" one_chr_track H3 H4) as [_ [sl [Hsl [_ Hsc]]]].
  vm_compute in Hsl. inversion Hsl; subst sl.
  eapply Hsc; [reflexivity | vm_compute; reflexivity ..].
Defined.

Lemma chr_length_from_genes_witness :
  render qsqrt one_chr_genes one_chr_snps = inr one_chr_drawing /\
  compute_setup qsqrt one_chr_genes one_chr_snps = inr one_chr_setup /\
  dict_get "chr1" (s_chr_lengths one_chr_setup) = Some 3000%Z /\
  py_max Z.ltb (dict_values (s_chr_lengths one_chr_setup)) = inr (s_max_chr_len one_chr_setup).
Proof.
  assert (H1 : render qsqrt one_chr_genes one_chr_snps = inr one_chr_drawing) by (vm_compute; reflexivity).
  assert (H2 : compute_setup qsqrt one_chr_genes one_chr_snps = inr one_chr_setup) by (vm_compute; reflexivity).
  destruct (chr_length_from_genes qsqrt one_chr_genes one_chr_snps one_chr_drawing one_chr_setup H1 H2)
    as [_ [Hm _]].
  split; [exact H1|]. split; [exact H2|]. split; [vm_compute; reflexivity | exact Hm].
Defined.

Lemma chr_width_monotone_witness :
  (0 < 3000)%Z /\ (1000 <= 2000)%Z /\
  exists w1 w2, chr_width_of 3000 1000 = inr w1 /\ chr_width_of 3000 2000 = inr w2 /\ w1 <= w2.
Proof.
  split; [lia|]. split; [lia|]. apply chr_width_monotone; lia.
Defined.

Lemma read_data_nonempty_witness :
  read_data py_float_dec one_chr_gene_lines = inr one_chr_genes /\
  forall k l, dict_get k one_chr_genes = Some l -> l <> [].
Proof.
  assert (H : read_data py_float_dec one_chr_gene_lines = inr one_chr_genes) by (vm_compute; reflexivity).
  split; [exact H|]. exact (proj2 (read_data_nonempty py_float_dec one_chr_gene_lines one_chr_genes H)).
Defined.

Lemma degenerate_inputs_fail_witness :
  read_data py_float_dec single_gene_lines = inr single_genes /\
  List.length (all_values single_genes) = 1%nat /\
  exists e, create_visualization py_float_dec qsqrt single_gene_lines [] = inl e.
Proof.
  assert (H : read_data py_float_dec single_gene_lines = inr single_genes) by (vm_compute; reflexivity).
  assert (Hl : List.length (all_values single_genes) = 1%nat) by (vm_compute; reflexivity).
  split; [exact H|]. split; [exact Hl|].
  apply (degenerate_inputs_fail py_float_dec qsqrt single_gene_lines [] single_genes []);
    [exact H | reflexivity | left; exact Hl].
Defined.


(* ================================================================== *)
(** * Further properties of the script *)

(* ------------------------------------------------------------------ *)
(** ** [max()] and [min()] of a non-empty iterable *)

Section Extremum.

Context {A : Type} (ltb : A -> A -> bool) (le : A -> A -> Prop).
Hypothesis le_refl : forall a, le a a.
Hypothesis le_trans : forall a b c, le a b -> le b c -> le a c.
Hypothesis ltb_true : forall a b, ltb a b = true -> le a b.
Hypothesis ltb_false : forall a b, ltb a b = false -> le b a.

Lemma fold_max_spec rest cur r :
  fold_left (fun cur y => if ltb cur y then y else cur) rest cur = r ->
  (r = cur \/ In r rest) /\ le cur r /\ forall x, In x rest -> le x r.
Proof.
  revert cur; induction rest as [|y rest IH]; simpl; intros cur H.
  - subst r. split; [auto|]. split; [apply le_refl | tauto].
  - destruct (IH _ H) as [H1 [H2 H3]].
    assert (Hc : le cur (if ltb cur y then y else cur) /\ le y (if ltb cur y then y else cur)).
    { destruct (ltb cur y) eqn:E; split; auto. }
    destruct Hc as [Hc1 Hc2]. split; [|split].
    + destruct H1 as [->|H1]; [|auto]. destruct (ltb cur y); auto.
    + eauto.
    + intros x [<-|Hx]; eauto.
Qed.

Lemma fold_min_spec rest cur r :
  fold_left (fun cur y => if ltb y cur then y else cur) rest cur = r ->
  (r = cur \/ In r rest) /\ le r cur /\ forall x, In x rest -> le r x.
Proof.
  revert cur; induction rest as [|y rest IH]; simpl; intros cur H.
  - subst r. split; [auto|]. split; [apply le_refl | tauto].
  - destruct (IH _ H) as [H1 [H2 H3]].
    assert (Hc : le (if ltb y cur then y else cur) cur /\ le (if ltb y cur then y else cur) y).
    { destruct (ltb y cur) eqn:E; split; auto. }
    destruct Hc as [Hc1 Hc2]. split; [|split].
    + destruct H1 as [->|H1]; [|auto]. destruct (ltb y cur); auto.
    + eauto.
    + intros x [<-|Hx]; eauto.
Qed.

Lemma py_max_spec l m : py_max ltb l = inr m -> In m l /\ forall x, In x l -> le x m.
Proof.
  destruct l as [|a rest]; simpl; [discriminate|]. intros H; injection H as Hm.
  destruct (fold_max_spec rest a m Hm) as [H1 [H2 H3]].
  split; [destruct H1; auto|]. intros x [<-|Hx]; auto.
Qed.

Lemma py_min_spec l m : py_min ltb l = inr m -> In m l /\ forall x, In x l -> le m x.
Proof.
  destruct l as [|a rest]; simpl; [discriminate|]. intros H; injection H as Hm.
  destruct (fold_min_spec rest a m Hm) as [H1 [H2 H3]].
  split; [destruct H1; auto|]. intros x [<-|Hx]; auto.
Qed.

End Extremum.

Lemma py_max_Z l m : py_max Z.ltb l = inr m -> In m l /\ forall x, In x l -> (x <= m)%Z.
Proof.
  apply py_max_spec; [intros; lia | intros; lia | |].
  - intros a b H; apply Z.ltb_lt in H; lia.
  - intros a b H; apply Z.ltb_ge in H; lia.
Qed.

Lemma py_max_Q l m : py_max qltb l = inr m -> In m l /\ forall x, In x l -> x <= m.
Proof.
  apply py_max_spec; [apply Qle_refl | apply Qle_trans | |].
  - intros a b H; apply Qlt_le_weak, qltb_true, H.
  - apply qltb_false.
Qed.

Lemma py_min_Q l m : py_min qltb l = inr m -> In m l /\ forall x, In x l -> m <= x.
Proof.
  apply py_min_spec; [apply Qle_refl | apply Qle_trans | |].
  - intros a b H; apply Qlt_le_weak, qltb_true, H.
  - apply qltb_false.
Qed.

(* ------------------------------------------------------------------ *)
(** ** [read_data], line by line *)

(** One iteration of the loop of [read_data], in closed form. *)
Lemma read_line_eq py_float data line :
  read_line py_float data line =
  match parse_line py_float line with
  | None => inl ValueError
  | Some (c, r) => inr (match dict_get c data with
                        | Some old => dict_set c (old ++ [r]) data
                        | None => data ++ [(c, [r])]
                        end)
  end.
Proof.
  unfold read_line, parse_line.
  destruct (py_split line) as [|chrom [|start [|end_ [|value [|x l]]]]]; try reflexivity.
  destruct (dict_get chrom data) as [old|] eqn:Eg.
  - unfold dict_lookup; rewrite Eg; cbv [bind ret raise parse_field].
    destruct (py_int start), (py_int end_), (py_float value); try reflexivity.
    rewrite Eg; reflexivity.
  - rewrite (dict_set_absent chrom []) by exact Eg.
    unfold dict_lookup; rewrite dict_get_app_absent by exact Eg; cbv [bind ret raise parse_field].
    destruct (py_int start), (py_int end_), (py_float value); try reflexivity.
    rewrite Eg, dict_set_app_absent by exact Eg. reflexivity.
Qed.

Lemma dict_keys_set_present {V} (k : string) (v : V) (d : dict V) :
  dict_get k d <> None -> dict_keys (dict_set k v d) = dict_keys d.
Proof.
  induction d as [|[k' v'] d IH]; simpl; [congruence|].
  destruct (String.eqb k k'); simpl; [reflexivity|]. intros H; f_equal; auto.
Qed.

Lemma dict_keys_app {V} (d : dict V) (c : string) (v : V) :
  dict_keys (d ++ [(c, v)]) = dict_keys d ++ [c].
Proof. unfold dict_keys; rewrite map_app; reflexivity. Qed.

Lemma dict_get_app {V} (k c : string) (v : V) (d : dict V) :
  dict_get k (d ++ [(c, v)]) =
  match dict_get k d with Some w => Some w | None => if String.eqb k c then Some v else None end.
Proof.
  induction d as [|[k' v'] d IH]; simpl; [destruct (String.eqb k c); reflexivity|].
  destruct (String.eqb k k'); auto.
Qed.

Lemma first_appearance_snoc cs c :
  first_appearance (cs ++ [c]) =
  if in_dec string_dec c cs then first_appearance cs else first_appearance cs ++ [c].
Proof.
  unfold first_appearance. rewrite rev_app_distr. simpl.
  destruct (in_dec string_dec c (rev cs)) as [H|H]; destruct (in_dec string_dec c cs) as [H'|H'];
    try reflexivity; exfalso.
  - apply H'. apply in_rev, H.
  - apply H. apply in_rev in H'. exact H'.
Qed.

Lemma first_appearance_In c cs : In c (first_appearance cs) <-> In c cs.
Proof. unfold first_appearance. rewrite <- in_rev, nodup_In, <- in_rev. reflexivity. Qed.

Lemma first_appearance_NoDup cs : NoDup (first_appearance cs).
Proof. apply NoDup_rev, NoDup_nodup. Qed.

Lemma records_of_app c l1 l2 : records_of c (l1 ++ l2) = records_of c l1 ++ records_of c l2.
Proof. unfold records_of. rewrite filter_app, map_app. reflexivity. Qed.

Lemma records_of_nil c l : records_of c l = [] <-> ~ In c (map fst l).
Proof.
  unfold records_of. induction l as [|[c' r] l IH]; simpl; [tauto|].
  destruct (String.eqb c' c) eqn:E; simpl.
  - apply String.eqb_eq in E. split; [discriminate|]. intros H; exfalso; apply H; left; exact E.
  - rewrite IH. split; [|tauto]. intros H [H'|H']; [|contradiction].
    subst c'. rewrite String.eqb_refl in E; discriminate.
Qed.

Lemma records_of_one c' c r : records_of c' [(c, r)] = if String.eqb c c' then [r] else [].
Proof. unfold records_of; simpl. destruct (String.eqb c c'); reflexivity. Qed.

(** The loop of [read_data] keeps the dict equal to the grouping of the
    records parsed so far. *)
Lemma read_lines_spec py_float lines data parsed0 data' :
  dict_keys data = first_appearance (map fst parsed0) ->
  (forall c, dict_get c data = nonempty_opt (records_of c parsed0)) ->
  read_lines py_float data lines = inr data' ->
  exists parsed, map (parse_line py_float) lines = map Some parsed /\
    dict_keys data' = first_appearance (map fst (parsed0 ++ parsed)) /\
    forall c, dict_get c data' = nonempty_opt (records_of c (parsed0 ++ parsed)).
Proof.
  revert data parsed0; induction lines as [|l ls IH]; simpl; intros data parsed0 Hk Hg H.
  - inversion H; subst. exists []. rewrite app_nil_r. auto.
  - inv_bind H. rewrite read_line_eq in Ha.
    destruct (parse_line py_float l) as [[c r]|] eqn:Ep; [|discriminate].
    inversion Ha; subst a; clear Ha.
    assert (Hin : dict_get c data = None <-> ~ In c (map fst parsed0)).
    { rewrite Hg, <- records_of_nil. destruct (records_of c parsed0); simpl; split; congruence. }
    set (data1 := match dict_get c data with
                  | Some old => dict_set c (old ++ [r]) data
                  | None => data ++ [(c, [r])]
                  end) in H.
    assert (Hk1 : dict_keys data1 = first_appearance (map fst (parsed0 ++ [(c, r)]))).
    { unfold data1. rewrite map_app. change (map fst [(c, r)]) with [c]. rewrite first_appearance_snoc.
      destruct (dict_get c data) as [old|] eqn:Eg.
      * rewrite dict_keys_set_present by congruence.
        destruct (in_dec string_dec c (map fst parsed0)) as [_|Hn]; [exact Hk|].
        apply Hin in Hn; discriminate.
      * rewrite dict_keys_app, Hk.
        destruct (in_dec string_dec c (map fst parsed0)) as [Hc|_]; [|reflexivity].
        exfalso. apply (proj1 Hin eq_refl), Hc. }
    assert (Hg1 : forall c', dict_get c' data1 = nonempty_opt (records_of c' (parsed0 ++ [(c, r)]))).
    { intros c'. unfold data1. rewrite records_of_app, records_of_one.
      destruct (dict_get c data) as [old|] eqn:Eg.
      * rewrite dict_get_set. rewrite String.eqb_sym.
        destruct (String.eqb c c') eqn:E; simpl.
        -- apply String.eqb_eq in E; subst c'. rewrite Hg in Eg.
           destruct (records_of c parsed0) as [|x xs]; simpl in Eg; [discriminate|].
           inversion Eg; subst old. reflexivity.
        -- rewrite app_nil_r. apply Hg.
      * rewrite dict_get_app. rewrite Hg. rewrite String.eqb_sym.
        destruct (String.eqb c c') eqn:E; simpl.
        -- apply String.eqb_eq in E; subst c'. rewrite Hg in Eg.
           destruct (records_of c parsed0); simpl in Eg; [reflexivity | discriminate].
        -- rewrite app_nil_r. destruct (records_of c' parsed0); reflexivity. }
    destruct (IH _ _ Hk1 Hg1 H) as [parsed [Hm [Hk' Hg']]].
    exists ((c, r) :: parsed). rewrite <- app_assoc in Hk', Hg'. simpl. rewrite Hm. auto.
Qed.

(** The loop of [read_data] stops at the first line that does not parse,
    with [ValueError]. *)
Lemma read_lines_error py_float lines data :
  (forall e, read_lines py_float data lines = inl e -> e = ValueError) /\
  ((exists e, read_lines py_float data lines = inl e) <->
   exists l, In l lines /\ parse_line py_float l = None).
Proof.
  revert data; induction lines as [|l ls IH]; simpl; intros data.
  - split; [discriminate|]. split; [intros [e H]; discriminate | intros [l [[] _]]].
  - rewrite read_line_eq. destruct (parse_line py_float l) as [[c r]|] eqn:Ep; simpl.
    + destruct (IH (match dict_get c data with
                    | Some old => dict_set c (old ++ [r]) data
                    | None => data ++ [(c, [r])]
                    end)) as [H1 H2].
      split; [exact H1|]. rewrite H2. split.
      * intros [l' [Hl' Hp]]; eauto.
      * intros [l' [[->|Hl'] Hp]]; [congruence | eauto].
    + split; [intros e H; inversion H; reflexivity|]. split; eauto.
Qed.

Lemma read_data_spec py_float lines d :
  read_data py_float lines = inr d ->
  exists parsed, map (parse_line py_float) lines = map Some parsed /\
    dict_keys d = first_appearance (map fst parsed) /\
    forall c, dict_get c d = nonempty_opt (records_of c parsed).
Proof.
  intros H. apply (read_lines_spec py_float lines [] [] d); [reflexivity | intros c; reflexivity | exact H].
Qed.

Lemma read_data_keys_NoDup py_float lines d :
  read_data py_float lines = inr d -> NoDup (dict_keys d).
Proof.
  intros H. destruct (read_data_spec _ _ _ H) as [parsed [_ [Hk _]]].
  rewrite Hk. apply first_appearance_NoDup.
Qed.

(* ------------------------------------------------------------------ *)
(** ** The tracks of a successful run *)

Lemma string_append_inj p a b : String.append p a = String.append p b -> a = b.
Proof.
  induction p as [|ch p IH]; simpl; [auto|]. intros H. apply IH. inversion H; reflexivity.
Qed.

Lemma NoDup_map_inj {A B} (f : A -> B) l :
  (forall x y, f x = f y -> x = y) -> NoDup l -> NoDup (map f l).
Proof.
  intros Hf; induction 1 as [|x l Hx Hl IH]; simpl; constructor; [|exact IH].
  intros Hin. apply in_map_iff in Hin as [y [Hy Hyl]]. apply Hf in Hy; subst y. contradiction.
Qed.

Lemma render_tracks_labels st g s i cs ts :
  render_tracks st g s i cs = inr ts ->
  map (fun t => txt (tr_label t)) ts = cs /\ map tr_clip_id ts = map (String.append "clip-") cs.
Proof.
  revert i ts; induction cs as [|c cs IH]; simpl; intros i ts H.
  - inversion H; subst; auto.
  - inv_bind H; inv_bind H. inversion H; subst; clear H; simpl.
    destruct (render_track_inr _ _ _ _ _ _ Ha)
      as [? [? [? [? [_ [_ [_ [_ [_ [Hclip [_ [_ [_ Hlab]]]]]]]]]]]]].
    destruct (IH _ _ Ha0) as [H1 H2]. rewrite Hlab, Hclip, H1, H2. auto.
Qed.

(** The vertical axis and the baseline drawn by one iteration. *)
Lemma render_track_lines st g s i c t :
  render_track st g s i c = inr t ->
  py_min qltb (map snd (tr_points t)) = inr (ly1 (tr_axis t)) /\
  tr_axis t = mk_line (Qz margin_side - 10) (ly1 (tr_axis t)) (Qz margin_side - 10) (Qz (track_y i) - 30) /\
  tr_baseline t = mk_line (Qz margin_side) (Qz (track_y i) - 30)
                          (Qz margin_side + pw (tr_shape t)) (Qz (track_y i) - 30) /\
  tr_label t = mk_text c (Qz margin_side - 20) (Qz (track_y i) + Qz chr_height / 2 + 5).
Proof.
  unfold render_track, dict_lookup; intros H.
  destruct (dict_get c (s_chr_lengths st)) as [L|]; [|discriminate]. simpl in H.
  inv_bind H. inv_bind H.
  destruct (dict_get c g) as [gl|]; [|discriminate]. simpl in H.
  inv_bind H.
  destruct (dict_get c s) as [sl|]; [|discriminate]. simpl in H.
  inv_bind H. inv_bind H. inversion H; subst; clear H; simpl. auto.
Qed.

(** Everything one drawn track is made of, in a successful run. *)
Lemma render_track_facts sqrt g s d st t :
  render sqrt g s = inr d -> compute_setup sqrt g s = inr st -> In t (d_tracks d) ->
  exists j c gl sl L,
    render_track st g s j c = inr t /\
    In c (s_chromosomes st) /\ dict_get c g = Some gl /\ get_chromosome_length gl = inr L /\
    dict_get c (s_chr_lengths st) = Some L /\ (L <= s_max_chr_len st)%Z /\
    dict_get c s = Some sl /\
    chr_width_of (s_max_chr_len st) L = inr (pw (tr_shape t)) /\
    tr_shape t = mk_path (Qz margin_side) (Qz (track_y j)) (pw (tr_shape t)) (Qz chr_height) /\
    mapR (gene_rect st (track_y j) L (pw (tr_shape t))) gl = inr (tr_rects t) /\
    mapR (snp_point st (track_y j) L (pw (tr_shape t))) sl = inr (tr_points t).
Proof.
  intros Hd Hs Ht.
  destruct (render_inr _ _ _ _ Hd) as [st' [Hs' Htr]].
  pose proof (compute_setup_fun _ _ _ _ _ Hs Hs'); subst st'.
  destruct (compute_setup_inr _ _ _ _ Hs) as [_ [Hcl [Hm _]]].
  apply render_tracks_all in Htr. rewrite Forall_forall in Htr.
  destruct (Htr t Ht) as [j [c [Hc Hj]]].
  destruct (render_track_inr _ _ _ _ _ _ Hj)
    as [L [w [gl [sl [HL [Hw [Hg [Hsl [Hsh [_ [Hr [Hp _]]]]]]]]]]]].
  destruct (chr_lengths_in _ _ _ _ _ Hcl Hc) as [gl' [L' [Hg' [HL' HcL']]]].
  rewrite Hg in Hg'. inversion Hg'; subst gl'. rewrite HL in HcL'. inversion HcL'; subst L'.
  rewrite Hsh in *; simpl in *.
  exists j, c, gl, sl, L. repeat split; auto.
  apply (proj2 (py_max_Z _ _ Hm)). unfold dict_values.
  apply dict_get_in in HL. apply (in_map snd) in HL. exact HL.
Qed.

(* ------------------------------------------------------------------ *)
(** ** Extra properties *)

(** [get_chromosome_length(data)] raises [ValueError] exactly on an empty
    record list, and otherwise returns the largest [end] of the list, which
    one of its records attains. *)
Theorem get_chromosome_length_spec data :
  (forall e, get_chromosome_length data = inl e <-> data = [] /\ e = ValueError) /\
  (forall L, get_chromosome_length data = inr L ->
     (exists r, In r data /\ rec_end r = L) /\ forall r, In r data -> (rec_end r <= L)%Z).
Proof.
  split.
  - intros e. destruct data as [|r data]; simpl; split.
    + intros H; inversion H; auto.
    + intros [_ ->]; reflexivity.
    + discriminate.
    + intros [H _]; discriminate.
  - intros L H. destruct (py_max_Z _ _ H) as [H1 H2]. split.
    + apply in_map_iff in H1. destruct H1 as [r [Hr Hin]]. eauto.
    + intros r Hr. apply H2, in_map, Hr.
Qed.

(** [read_data] groups the records by chromosome: the lines all parse, the
    keys are the chromosome names in order of first appearance, and each
    key holds the records of its lines in file order. *)
Theorem read_data_groups py_float lines d :
  read_data py_float lines = inr d ->
  exists parsed, map (parse_line py_float) lines = map Some parsed /\
    dict_keys d = first_appearance (map fst parsed) /\
    forall c, dict_get c d = nonempty_opt (records_of c parsed).
Proof. exact (read_data_spec py_float lines d). Qed.

(** [read_data] fails exactly when some line does not consist of four
    fields with an [int] start, an [int] end and a [float] value (a blank
    line included), and then always with [ValueError]. *)
Theorem read_data_fails_iff py_float lines :
  (forall e, read_data py_float lines = inl e -> e = ValueError) /\
  ((exists e, read_data py_float lines = inl e) <->
   exists l, In l lines /\ parse_line py_float l = None).
Proof. exact (read_lines_error py_float lines []). Qed.

(** In a saved drawing every heatmap group is clipped by its own clip path:
    the ids [clip-<chrom>] are [clip-] followed by the track's name, and
    they are pairwise distinct. *)
Theorem clip_ids_distinct py_float sqrt gls sls d :
  create_visualization py_float sqrt gls sls = inr d ->
  map tr_clip_id (d_tracks d) = map (fun t => String.append "clip-" (txt (tr_label t))) (d_tracks d) /\
  NoDup (map tr_clip_id (d_tracks d)).
Proof.
  unfold create_visualization; intros H.
  inv_bind H. inv_bind H.
  destruct (render_inr _ _ _ _ H) as [st [Hs Htr]].
  destruct (compute_setup_inr _ _ _ _ Hs) as [Ho _].
  destruct (chromosome_order_inr _ _ Ho) as [Hp _].
  destruct (render_tracks_labels _ _ _ _ _ _ Htr) as [Hl Hc].
  split.
  - rewrite Hc, <- Hl, map_map. reflexivity.
  - rewrite Hc. apply NoDup_map_inj; [apply string_append_inj|].
    eapply Permutation_NoDup; [symmetry; exact Hp|].
    eapply read_data_keys_NoDup; exact Ha.
Qed.

(* ------------------------------------------------------------------ *)
(** ** Arithmetic of positions *)

Lemma Qz_sub a b : Qz (a - b) == Qz a - Qz b.
Proof. unfold Qz, Qeq; simpl; lia. Qed.

Lemma Qz_mul a b : Qz (a * b) == Qz a * Qz b.
Proof. unfold Qz, Qeq; simpl; lia. Qed.

Lemma Qz_le a b : (a <= b)%Z <-> Qz a <= Qz b.
Proof. unfold Qle, Qz; simpl; lia. Qed.

Lemma Qz_lt a b : (a < b)%Z <-> Qz a < Qz b.
Proof. unfold Qlt, Qz; simpl; lia. Qed.

Lemma Qz_div_le_iff a b M : (0 < M)%Z -> (Qz a / Qz M <= Qz b / Qz M <-> (a <= b)%Z).
Proof.
  intros HM. unfold Qdiv. rewrite Qmult_le_r by (apply Qinv_lt_0_compat; unfold Qlt, Qz; simpl; lia).
  apply iff_sym, Qz_le.
Qed.

Lemma Qz_div_lt_iff a b M : (0 < M)%Z -> (Qz a / Qz M < Qz b / Qz M <-> (a < b)%Z).
Proof.
  intros HM. unfold Qdiv. rewrite Qmult_lt_r by (apply Qinv_lt_0_compat; unfold Qlt, Qz; simpl; lia).
  apply iff_sym, Qz_lt.
Qed.

(** A position [a / chr_len] along a track of width [1000 * chr_len / max_chr_len]. *)
Lemma scale_eq a L M : L <> 0%Z -> M <> 0%Z ->
  Qz a / Qz L * (Qz 1000 * (Qz L / Qz M)) == Qz (1000 * a) / Qz M.
Proof.
  intros HL HM. rewrite Qz_mul. field.
  split; unfold Qz, Qeq; simpl; lia.
Qed.

Lemma py_div_inr a b q : py_div a b = inr q -> q = a / b /\ ~ b == 0.
Proof.
  unfold py_div. destruct (Qeq_bool b 0) eqn:E; [discriminate|].
  intros H; inversion H; subst. split; [reflexivity|]. apply Qeq_bool_neq, E.
Qed.

Lemma chr_width_of_inr M L w :
  chr_width_of M L = inr w -> M <> 0%Z /\ w = Qz 1000 * (Qz L / Qz M).
Proof.
  unfold chr_width_of; intros H. inv_bind H. inversion H; subst; clear H.
  apply py_div_inr in Ha as [-> HM]. split; [|reflexivity].
  intros ->. apply HM. reflexivity.
Qed.

Lemma gene_rect_geom st y L w r rc :
  gene_rect st y L w r = inr rc ->
  rx rc = Qz margin_side + Qz (fst (fst r) - 1) / Qz L * w /\
  rw rc = py_max2 1 (Qz (snd (fst r) - fst (fst r) + 1) / Qz L * w).
Proof.
  destruct r as [[start end_] value]; simpl; intros H.
  inv_bind H. inv_bind H. inv_bind H. inv_bind H. inversion H; subst; simpl.
  apply py_div_inr in Ha as [-> _]. apply py_div_inr in Ha0 as [-> _]. auto.
Qed.

Lemma snp_point_geom st y L w r p :
  snp_point st y L w r = inr p ->
  fst p = Qz margin_side + Qz (fst (fst r) - 1) / Qz L * w /\
  snd p = Qz y - 30 - (rec_value r / s_max_snp st) * 100 /\ ~ s_max_snp st == 0.
Proof.
  destruct r as [[start end_] value]; simpl; intros H.
  inv_bind H. inv_bind H. inversion H; subst; simpl.
  apply py_div_inr in Ha as [-> _]. apply py_div_inr in Ha0 as [-> Hm]. auto.
Qed.

Lemma Forall2_mem {A B} (P : A -> B -> Prop) xs ys :
  Forall2 P xs ys -> Forall2 (fun x y => In x xs /\ P x y) xs ys.
Proof.
  induction 1 as [|x y xs ys Hxy _ IH]; constructor; [simpl; auto|].
  eapply Forall2_impl; [|exact IH]. intros a b [Ha Hb]. simpl; auto.
Qed.

Lemma all_values_in (d : dict (list record)) c l r :
  In (c, l) d -> In r l -> In (rec_value r) (all_values d).
Proof.
  intros Hc Hr. unfold all_values. apply in_concat.
  exists (map rec_value l). split; [apply (in_map (fun kv => map rec_value (snd kv)) _ _ Hc) | apply in_map, Hr].
Qed.

(* ------------------------------------------------------------------ *)
(** ** Monotonicity of the colour bins *)

Lemma py_min2_mono a b c : a <= b -> py_min2 a c <= py_min2 b c.
Proof. intros H. unfold py_min2. qltb_cases; lra. Qed.

Lemma py_max2_mono a b c : a <= b -> py_max2 a c <= py_max2 b c.
Proof. intros H. unfold py_max2. qltb_cases; lra. Qed.

Lemma clamp_value_mono mn mx v1 v2 : v1 <= v2 -> clamp_value mn mx v1 <= clamp_value mn mx v2.
Proof. intros H. unfold clamp_value. apply py_max2_mono, py_min2_mono, H. Qed.

Lemma py_int_of_float_floor x : 0 <= x -> py_int_of_float x = Qfloor x.
Proof.
  destruct x as [n d]. unfold Qle, py_int_of_float; simpl; intros H.
  apply Z.quot_div_nonneg; lia.
Qed.

Lemma py_int_of_float_mono x y : 0 <= x -> x <= y -> (py_int_of_float x <= py_int_of_float y)%Z.
Proof.
  intros Hx Hxy. rewrite !py_int_of_float_floor by lra. apply Qfloor_resp_le, Hxy.
Qed.

Lemma Qz_div_nonneg_iff a M : (0 < M)%Z -> (0 <= Qz a / Qz M <-> (0 <= a)%Z).
Proof.
  intros HM. assert (E : Qz 0 / Qz M == 0) by (unfold Qdiv; apply Qmult_0_l).
  rewrite <- (Qz_div_le_iff 0 a M HM), E. reflexivity.
Qed.

Lemma Qz_div_pos_iff a M : (0 < M)%Z -> (0 < Qz a / Qz M <-> (0 < a)%Z).
Proof.
  intros HM. assert (E : Qz 0 / Qz M == 0) by (unfold Qdiv; apply Qmult_0_l).
  rewrite <- (Qz_div_lt_iff 0 a M HM), E. reflexivity.
Qed.

Lemma Qz_div_const k M : M <> 0%Z -> Qz (k * M) / Qz M == Qz k.
Proof. intros HM. rewrite Qz_mul. field. unfold Qz, Qeq; simpl; lia. Qed.

Lemma Qz_div_add a b M : Qz a / Qz M + Qz b / Qz M == Qz (a + b) / Qz M.
Proof.
  unfold Qdiv. rewrite <- Qmult_plus_distr_l. apply Qmult_comp; [|reflexivity].
  unfold Qz, Qeq; simpl; lia.
Qed.

(** The width of a track in closed form. *)
Lemma track_width_eq M L w :
  chr_width_of M L = inr w -> M <> 0%Z /\ w == Qz (1000 * L) / Qz M.
Proof.
  intros H. apply chr_width_of_inr in H as [HM ->]. split; [exact HM|].
  rewrite Qz_mul. field. unfold Qz, Qeq; simpl; lia.
Qed.

Lemma Forall2_Forall_r {A B} (P : A -> B -> Prop) (Q : B -> Prop) xs ys :
  Forall2 P xs ys -> (forall x y, P x y -> Q y) -> Forall Q ys.
Proof. induction 1; constructor; eauto. Qed.

(** With [min_clamp < max_clamp] the bin is monotone in the gene value: a
    larger value never gets a lighter colour than a smaller one. *)
Theorem color_index_monotone mn mx v1 v2 k1 k2 :
  mn < mx -> v1 <= v2 ->
  color_index mn mx v1 = inr k1 -> color_index mn mx v2 = inr k2 -> (k1 <= k2)%Z.
Proof.
  intros Hlt Hv H1 H2. rewrite color_index_div in H1, H2 by exact Hlt.
  cbv zeta in H1, H2. injection H1 as <-. injection H2 as <-.
  assert (Hk : (py_int_of_float ((clamp_value mn mx v1 - mn) / (mx - mn) * 5) <=
                py_int_of_float ((clamp_value mn mx v2 - mn) / (mx - mn) * 5))%Z).
  { apply py_int_of_float_mono; [apply clamped_ratio_nonneg, Hlt|].
    apply Qmult_le_compat_r; [|lra]. unfold Qdiv. apply Qmult_le_compat_r.
    - pose proof (clamp_value_mono mn mx v1 v2 Hv). lra.
    - apply Qinv_le_0_compat. lra. }
  destruct (Z.ltb_spec 4 (py_int_of_float ((clamp_value mn mx v1 - mn) / (mx - mn) * 5)));
  destruct (Z.ltb_spec 4 (py_int_of_float ((clamp_value mn mx v2 - mn) / (mx - mn) * 5))); lia.
Qed.

(** Every heatmap rectangle of a gene with [1 <= start <= end] starts inside
    its chromosome's shape, and ends inside it too unless [max(1, ...)]
    widened it to 1 pixel. *)
Theorem gene_rects_inside_shape sqrt g s d t :
  render sqrt g s = inr d -> In t (d_tracks d) ->
  exists gl, dict_get (txt (tr_label t)) g = Some gl /\
  Forall2 (fun r rc => (1 <= fst (fst r) <= snd (fst r))%Z ->
             px (tr_shape t) <= rx rc <= px (tr_shape t) + pw (tr_shape t) /\
             (rx rc + rw rc <= px (tr_shape t) + pw (tr_shape t) \/ rw rc == 1))
          gl (tr_rects t).
Proof.
  intros Hd Ht. destruct (render_inr _ _ _ _ Hd) as [st [Hs _]].
  destruct (render_track_facts _ _ _ _ _ _ Hd Hs Ht)
    as [j [c [gl [sl [L [Hj [_ [Hg [HL [_ [HLM [_ [Hw [Hsh [Hr _]]]]]]]]]]]]]]].
  destruct (render_track_lines _ _ _ _ _ _ Hj) as [_ [_ [_ Hlab]]].
  rewrite Hlab; simpl. exists gl. split; [exact Hg|].
  set (w := pw (tr_shape t)) in *. set (M := s_max_chr_len st) in *.
  destruct (track_width_eq _ _ _ Hw) as [HM Hw'].
  apply chr_width_of_inr in Hw as [_ Hw].
  unfold get_chromosome_length in HL. destruct (py_max_Z _ _ HL) as [_ Hends].
  apply mapR_inr, Forall2_mem in Hr.
  rewrite Hsh; simpl.
  eapply Forall2_impl; [|exact Hr]. intros [[st0 e] v] rc [Hin Hgr] Hse. simpl in Hse.
  destruct (gene_rect_geom _ _ _ _ _ _ Hgr) as [Hx Hwd]. simpl in Hx, Hwd.
  assert (He : (e <= L)%Z) by (apply Hends; apply (in_map rec_end) in Hin; exact Hin).
  assert (HM0 : (0 < M)%Z) by lia.
  assert (Hx' : rx rc == Qz margin_side + Qz (1000 * (st0 - 1)) / Qz M)
    by (rewrite Hx, Hw, scale_eq by lia; reflexivity).
  assert (Hf : Qz (e - st0 + 1) / Qz L * w == Qz (1000 * (e - st0 + 1)) / Qz M)
    by (rewrite Hw, scale_eq by lia; reflexivity).
  assert (H0 : 0 <= Qz (1000 * (st0 - 1)) / Qz M) by (apply Qz_div_nonneg_iff; lia).
  assert (H1 : Qz (1000 * (st0 - 1)) / Qz M <= Qz (1000 * L) / Qz M) by (apply Qz_div_le_iff; lia).
  assert (H2 : Qz (1000 * (st0 - 1)) / Qz M + Qz (1000 * (e - st0 + 1)) / Qz M <= Qz (1000 * L) / Qz M)
    by (rewrite Qz_div_add; apply Qz_div_le_iff; lia).
  split; [rewrite Hx', Hw'; lra|].
  rewrite Hwd. unfold py_max2. destruct (qltb 1 (Qz (e - st0 + 1) / Qz L * w)).
  - left. rewrite Hx', Hf, Hw'. lra.
  - right. reflexivity.
Qed.

(** A SNP's point lies horizontally within its chromosome's shape exactly
    when [1 <= start <= chr_len + 1], [chr_len] being the largest gene end of
    the chromosome ([get_chromosome_length] of its genes): SNPs past the last
    gene are drawn to the right of the shape. *)
Theorem snp_x_inside_iff sqrt g s d t :
  render sqrt g s = inr d -> In t (d_tracks d) ->
  exists gl sl L, dict_get (txt (tr_label t)) g = Some gl /\ get_chromosome_length gl = inr L /\
    dict_get (txt (tr_label t)) s = Some sl /\
    ((0 < L)%Z ->
     Forall2 (fun r p => px (tr_shape t) <= fst p <= px (tr_shape t) + pw (tr_shape t) <->
                         (1 <= fst (fst r) <= L + 1)%Z) sl (tr_points t)).
Proof.
  intros Hd Ht. destruct (render_inr _ _ _ _ Hd) as [st [Hs _]].
  destruct (render_track_facts _ _ _ _ _ _ Hd Hs Ht)
    as [j [c [gl [sl [L [Hj [_ [Hg [HL [_ [HLM [Hsl [Hw [Hsh [_ Hp]]]]]]]]]]]]]]].
  destruct (render_track_lines _ _ _ _ _ _ Hj) as [_ [_ [_ Hlab]]].
  rewrite Hlab; simpl. exists gl, sl, L. split; [exact Hg|]. split; [exact HL|]. split; [exact Hsl|].
  intros HL0.
  set (w := pw (tr_shape t)) in *. set (M := s_max_chr_len st) in *.
  destruct (track_width_eq _ _ _ Hw) as [HM Hw'].
  apply chr_width_of_inr in Hw as [_ Hw].
  apply mapR_inr in Hp. rewrite Hsh; simpl.
  eapply Forall2_impl; [|exact Hp]. intros [[st0 e] v] p Hsp.
  destruct (snp_point_geom _ _ _ _ _ _ Hsp) as [Hx _]. simpl in Hx |- *.
  assert (HM0 : (0 < M)%Z) by lia.
  assert (Hx' : fst p == Qz margin_side + Qz (1000 * (st0 - 1)) / Qz M)
    by (rewrite Hx, Hw, scale_eq by lia; reflexivity).
  rewrite Hx', Hw'.
  set (X := Qz (1000 * (st0 - 1)) / Qz M). set (W := Qz (1000 * L) / Qz M).
  assert (E1 : 0 <= X <-> (0 <= 1000 * (st0 - 1))%Z) by (apply Qz_div_nonneg_iff, HM0).
  assert (E2 : X <= W <-> (1000 * (st0 - 1) <= 1000 * L)%Z) by (apply Qz_div_le_iff, HM0).
  split.
  - intros [Ha Hb]. assert (0 <= X) by lra. assert (X <= W) by lra.
    apply E1 in H. apply E2 in H0. lia.
  - intros Hr. assert (0 <= X) by (apply E1; lia). assert (X <= W) by (apply E2; lia). lra.
Qed.

(** When every SNP value is non-negative, every point of a chromosome's SNP
    line lies in the band from 130 to 30 pixels above the top of its shape,
    and the vertical axis at x = 90 runs from the highest point of the line
    ([min] of the point heights) down to the baseline 30 pixels above it. *)
Theorem snp_band sqrt g s d t :
  render sqrt g s = inr d -> (forall v, In v (all_values s) -> 0 <= v) -> In t (d_tracks d) ->
  Forall (fun p => py (tr_shape t) - 130 <= snd p <= py (tr_shape t) - 30) (tr_points t) /\
  lx1 (tr_axis t) == 90 /\ lx2 (tr_axis t) == 90 /\ ly2 (tr_axis t) == py (tr_shape t) - 30 /\
  In (ly1 (tr_axis t)) (map snd (tr_points t)) /\
  (forall p, In p (tr_points t) -> ly1 (tr_axis t) <= snd p) /\
  py (tr_shape t) - 130 <= ly1 (tr_axis t) <= ly2 (tr_axis t).
Proof.
  intros Hd Hnn Ht. destruct (render_inr _ _ _ _ Hd) as [st [Hs _]].
  destruct (compute_setup_inr _ _ _ _ Hs) as [_ [_ [_ [Hmax _]]]].
  destruct (py_max_Q _ _ Hmax) as [Hmin Hle].
  destruct (render_track_facts _ _ _ _ _ _ Hd Hs Ht)
    as [j [c [gl [sl [L [Hj [_ [_ [_ [_ [_ [Hsl [_ [Hsh [_ Hp]]]]]]]]]]]]]]].
  destruct (render_track_lines _ _ _ _ _ _ Hj) as [Hy [Hax _]].
  apply mapR_inr, Forall2_mem in Hp.
  assert (Hb : forall p, In p (tr_points t) -> py (tr_shape t) - 130 <= snd p <= py (tr_shape t) - 30).
  { intros p Hin. destruct (Forall2_in_r _ _ _ _ Hp Hin) as [r [_ [Hr Hsp]]].
    destruct (snp_point_geom _ _ _ _ _ _ Hsp) as [_ [Hy' Hm0]].
    assert (Hv : In (rec_value r) (all_values s)) by (eapply all_values_in; [apply dict_get_in, Hsl | exact Hr]).
    pose proof (Hnn _ Hv) as Hv0. pose proof (Hle _ Hv) as Hvm. pose proof (Hnn _ Hmin) as Hm.
    assert (Hpos : 0 < s_max_snp st).
    { destruct (Qle_lt_or_eq _ _ Hm) as [H|H]; [exact H|]. exfalso. apply Hm0. symmetry. exact H. }
    assert (Hh0 : 0 <= rec_value r / s_max_snp st) by (apply Qle_shift_div_l; [exact Hpos | lra]).
    assert (Hh1 : rec_value r / s_max_snp st <= 1) by (apply Qle_shift_div_r; [exact Hpos | lra]).
    rewrite Hy', Hsh. simpl. set (h := rec_value r / s_max_snp st) in *. lra. }
  destruct (py_min_Q _ _ Hy) as [Hyin Hymin].
  assert (Hlow : forall p, In p (tr_points t) -> ly1 (tr_axis t) <= snd p)
    by (intros p Hp'; apply Hymin, in_map, Hp').
  destruct (proj1 (in_map_iff _ _ _) Hyin) as [p0 [Hp0 Hp0in]].
  pose proof (Hb _ Hp0in) as Hb0. rewrite Hp0 in Hb0.
  rewrite Hax; simpl. rewrite Hsh in Hb0 |- *; simpl in Hb0 |- *.
  split; [apply Forall_forall; intros p Hin; pose proof (Hb p Hin) as Hbp; rewrite Hsh in Hbp; exact Hbp|].
  split; [reflexivity|]. split; [reflexivity|]. split; [reflexivity|].
  split; [exact Hyin|]. split; [exact Hlow|]. lra.
Qed.

(** A chromosome of positive length is drawn with a width in (0, 1000]
    pixels, and exactly 1000 pixels when it is the longest one; its length is
    [get_chromosome_length] of its genes, at most the global maximum. *)
Theorem track_width_bounds sqrt g s d st t :
  render sqrt g s = inr d -> compute_setup sqrt g s = inr st -> In t (d_tracks d) ->
  exists gl L, dict_get (txt (tr_label t)) g = Some gl /\ get_chromosome_length gl = inr L /\
    (L <= s_max_chr_len st)%Z /\
    ((0 < L)%Z -> 0 < pw (tr_shape t) <= 1000 /\ (pw (tr_shape t) == 1000 <-> L = s_max_chr_len st)).
Proof.
  intros Hd Hs Ht.
  destruct (render_track_facts _ _ _ _ _ _ Hd Hs Ht)
    as [j [c [gl [sl [L [Hj [_ [Hg [HL [_ [HLM [_ [Hw _]]]]]]]]]]]]].
  destruct (render_track_lines _ _ _ _ _ _ Hj) as [_ [_ [_ Hlab]]].
  rewrite Hlab; simpl. exists gl, L. split; [exact Hg|]. split; [exact HL|]. split; [exact HLM|].
  intros HL0. set (M := s_max_chr_len st) in *.
  destruct (track_width_eq _ _ _ Hw) as [HM Hw']. rewrite Hw'.
  assert (HM0 : (0 < M)%Z) by lia.
  assert (E : Qz (1000 * M) / Qz M == 1000) by (apply (Qz_div_const 1000 M HM)).
  split; [split|].
  - apply Qz_div_pos_iff; lia.
  - rewrite <- E. apply Qz_div_le_iff; lia.
  - rewrite <- E. split.
    + intros Heq. assert (H1 : Qz (1000 * L) / Qz M <= Qz (1000 * M) / Qz M) by (rewrite Heq; apply Qle_refl).
      assert (H2 : Qz (1000 * M) / Qz M <= Qz (1000 * L) / Qz M) by (rewrite Heq; apply Qle_refl).
      apply Qz_div_le_iff in H1; [|exact HM0]. apply Qz_div_le_iff in H2; [|exact HM0]. lia.
    + intros ->. reflexivity.
Qed.

(** The outline of every chromosome is a closed capsule: from (107, y) a
    horizontal line, a half-circle arc of radius 7 down by 14, the bottom
    line back, and an arc up to the start.  Its straight segments are
    [width - 14] long, so for a positive maximum length they run backwards
    exactly when [1000 * chr_len < 14 * max_chr_len]. *)
Theorem chromosome_outline sqrt g s d st t :
  render sqrt g s = inr d -> compute_setup sqrt g s = inr st -> In t (d_tracks d) ->
  exists x0 x1 y0 r h,
    outline (tr_shape t) =
      [MoveTo x0 y0; LineTo x1 y0; ArcTo r r 0 0 1 x1 (y0 + h); LineTo x0 (y0 + h);
       ArcTo r r 0 0 1 x0 y0; ClosePath] /\
    x0 == 107 /\ y0 = py (tr_shape t) /\ h == 14 /\ r == 7 /\ x1 - x0 == pw (tr_shape t) - 14 /\
    exists L, dict_get (txt (tr_label t)) (s_chr_lengths st) = Some L /\
      ((0 < s_max_chr_len st)%Z -> (x1 < x0 <-> (1000 * L < 14 * s_max_chr_len st)%Z)).
Proof.
  intros Hd Hs Ht.
  destruct (render_track_facts _ _ _ _ _ _ Hd Hs Ht)
    as [j [c [gl [sl [L [Hj [_ [_ [_ [HcL [_ [_ [Hw [Hsh _]]]]]]]]]]]]]].
  destruct (render_track_lines _ _ _ _ _ _ Hj) as [_ [_ [_ Hlab]]].
  set (w := pw (tr_shape t)) in *.
  unfold outline, create_chromosome_shape. rewrite Hsh; simpl.
  exists (Qz margin_side + Qz chr_height / 2), (Qz margin_side + w - Qz chr_height / 2),
         (Qz (track_y j)), (Qz chr_height / 2), (Qz chr_height).
  split; [reflexivity|].
  assert (Hd14 : Qz chr_height / 2 == 7) by reflexivity.
  split; [unfold margin_side; rewrite Hd14; reflexivity|].
  split; [reflexivity|]. split; [reflexivity|]. split; [exact Hd14|].
  split; [rewrite Hd14; unfold chr_height; ring_simplify; reflexivity|].
  exists L. rewrite Hlab; simpl. split; [exact HcL|].
  intros HM0. set (M := s_max_chr_len st) in *.
  destruct (track_width_eq _ _ _ Hw) as [HM Hw'].
  assert (E : Qz (14 * M) / Qz M == 14) by (apply (Qz_div_const 14 M HM)).
  rewrite Hd14.
  transitivity (w < 14); [split; intros; lra|].
  rewrite Hw', <- E. apply Qz_div_lt_iff, HM0.
Qed.

(* ------------------------------------------------------------------ *)
(** ** Ruler, page and legend *)

Lemma render_parts sqrt g s d :
  render sqrt g s = inr d ->
  exists st, compute_setup sqrt g s = inr st /\
    render_tracks st g s 0 (s_chromosomes st) = inr (d_tracks d) /\
    d_width d = svg_width /\
    d_height d = (Z.of_nat (List.length (s_chromosomes st)) * (chr_height + chr_spacing)
                  + margin_top + margin_bottom)%Z /\
    d_ticks d = ruler (d_height d) (s_max_chr_len st) /\ d_legend d = legend /\
    d_min_label d = mk_text "Min" (Qz (svg_width - margin_side - heatmap_scale_width))
                      (Qz margin_top / 2 + Qz heatmap_scale_height + 15) /\
    d_max_label d = mk_text "Max" (Qz (svg_width - margin_side))
                      (Qz margin_top / 2 + Qz heatmap_scale_height + 15).
Proof.
  unfold render; intros H. inv_bind H. inv_bind H. inversion H; subst; simpl.
  exists a. repeat split; auto.
Qed.

Lemma py_index_in {A} (xs : list A) i x : py_index xs i = inr x -> In x xs.
Proof.
  unfold py_index. destruct (_ || _); [discriminate|].
  destruct (nth_error xs _) eqn:E; [|discriminate]. intros H; inversion H; subst.
  eapply nth_error_In, E.
Qed.

(** The ruler has 6 ticks, evenly spaced from x = 100 to x = 1100: tick [k]
    stands at [100 + 200 k] and is labelled [k * max_chr_len / 5 / 1e6] Mb
    (the value before its one-decimal formatting), so a chromosome whose
    length in base pairs is [1e6] times a tick's label ends exactly at that
    tick.  Each tick line runs down 5 pixels from [svg_height - 50] and its
    label sits 20 pixels below that line's top. *)
Theorem ruler_ticks sqrt g s d st :
  render sqrt g s = inr d -> compute_setup sqrt g s = inr st ->
  List.length (d_ticks d) = 6%nat /\
  forall k tk, nth_error (d_ticks d) k = Some tk ->
    tk_x tk == 100 + 200 * Qz (Z.of_nat k) /\
    tk_mb tk == Qz (Z.of_nat k) * Qz (s_max_chr_len st) / 5 / 1000000 /\
    lx1 (tk_line tk) = tk_x tk /\ lx2 (tk_line tk) = tk_x tk /\
    ly1 (tk_line tk) == Qz (d_height d) - 50 /\ ly2 (tk_line tk) == ly1 (tk_line tk) + 5 /\
    tk_y tk == ly1 (tk_line tk) + 20 /\
    (forall L w, chr_width_of (s_max_chr_len st) L = inr w -> Qz L == tk_mb tk * 1000000 ->
       Qz margin_side + w == tk_x tk).
Proof.
  intros Hd Hs. destruct (render_parts _ _ _ _ Hd) as [st' [Hs' [_ [_ [_ [Hr _]]]]]].
  rewrite Hs in Hs'. injection Hs' as <-.
  rewrite Hr. unfold ruler. split; [reflexivity|].
  intros k tk H. rewrite nth_error_map, nth_error_seq in H.
  destruct (k <? 6)%nat; [|discriminate]. injection H as <-. simpl.
  set (n := Qz (Z.of_nat k)).
  repeat split; try reflexivity;
    try (cbv [Qz inject_Z margin_side margin_bottom svg_width]; field).
  intros L w Hw HL. apply chr_width_of_inr in Hw as [HM ->]. rewrite HL.
  cbv [Qz inject_Z margin_side]. field. unfold Qeq; simpl; lia.
Qed.

(** The canvas is 1200 pixels wide and [134 n + 260] high for [n] drawn
    chromosomes; track [j] starts at [y = 160 + 134 j]; every track's shape
    and name lie above the ruler's tick lines, and the tick labels lie inside
    the canvas. *)
Theorem page_layout sqrt g s d :
  render sqrt g s = inr d ->
  d_width d = 1200%Z /\
  d_height d = (134 * Z.of_nat (List.length (d_tracks d)) + 260)%Z /\
  (forall j t, nth_error (d_tracks d) j = Some t -> py (tr_shape t) = Qz (160 + 134 * Z.of_nat j)) /\
  (forall t tk, In t (d_tracks d) -> In tk (d_ticks d) ->
     py (tr_shape t) + ph (tr_shape t) < ly1 (tk_line tk) /\ ty (tr_label t) < ly1 (tk_line tk) /\
     tk_y tk < Qz (d_height d)).
Proof.
  intros Hd. destruct (render_parts _ _ _ _ Hd) as [st [_ [Htr [Hw [Hh [Hr _]]]]]].
  destruct (render_tracks_nth _ _ _ _ _ _ Htr) as [Hlen Hn].
  assert (Hy : forall j t, nth_error (d_tracks d) j = Some t ->
                 render_track st g s j (nth j (s_chromosomes st) EmptyString) = inr t).
  { intros j t Ht. apply Hn; [|exact Ht].
    apply nth_error_nth'. rewrite <- Hlen. apply nth_error_Some. congruence. }
  assert (Hpy : forall j t, nth_error (d_tracks d) j = Some t ->
                  py (tr_shape t) = Qz (160 + 134 * Z.of_nat j) /\
                  ty (tr_label t) = Qz (track_y j) + Qz chr_height / 2 + 5).
  { intros j t Ht. pose proof (Hy j t Ht) as Hj.
    destruct (render_track_inr _ _ _ _ _ _ Hj) as [? [? [? [? [_ [_ [_ [_ [Hsh _]]]]]]]]].
    destruct (render_track_lines _ _ _ _ _ _ Hj) as [_ [_ [_ Hlab]]].
    rewrite Hsh, Hlab; cbn [py]. split; [|reflexivity].
    unfold track_y, margin_top, chr_height, chr_spacing. f_equal. lia. }
  split; [exact Hw|]. split; [rewrite Hh, Hlen; unfold chr_height, chr_spacing, margin_top, margin_bottom; lia|].
  split; [intros j t Ht; apply (Hpy j t Ht)|].
  intros t tk Ht Htk.
  apply In_nth_error in Ht as [j Hj].
  assert (Hjn : (j < List.length (d_tracks d))%nat) by (apply nth_error_Some; congruence).
  destruct (Hpy j t Hj) as [Hp Hl].
  destruct (render_track_inr _ _ _ _ _ _ (Hy j t Hj)) as [? [? [? [? [_ [_ [_ [_ [Hsh _]]]]]]]]].
  rewrite Hr in Htk. unfold ruler in Htk. apply in_map_iff in Htk as [i [<- Hi]]. simpl.
  rewrite Hl, Hsh; cbn [py ph ty tk_line ly1 tk_y].
  assert (Hz : (track_y j + chr_height < d_height d - 50)%Z).
  { rewrite Hh, <- Hlen. unfold track_y, margin_top, margin_bottom, chr_height, chr_spacing. lia. }
  generalize (track_y j) (d_height d) Hz. intros y H Hz'.
  unfold Qz, Qlt, margin_bottom, chr_height in *; simpl. repeat split; lia.
Qed.

(** The legend has one 20 x 20 swatch per palette colour, in palette order,
    side by side from x = 1000 to x = 1100 at y = 80, with "Min" written at
    its left end and "Max" at its right end; every heatmap rectangle is
    filled with the colour of one of the swatches. *)
Theorem legend_layout sqrt g s d :
  render sqrt g s = inr d ->
  List.length (d_legend d) = 5%nat /\
  (forall k sw, nth_error (d_legend d) k = Some sw ->
     nth_error colors k = Some (rfill sw) /\ rx sw == 1000 + 20 * Qz (Z.of_nat k) /\
     rw sw == 20 /\ ry sw == 80 /\ rh sw == 20) /\
  txt (d_min_label d) = "Min"%string /\ tx (d_min_label d) == 1000 /\
  txt (d_max_label d) = "Max"%string /\ tx (d_max_label d) == 1100 /\
  (forall t rc, In t (d_tracks d) -> In rc (tr_rects t) ->
     exists sw, In sw (d_legend d) /\ rfill sw = rfill rc).
Proof.
  intros Hd. destruct (render_parts _ _ _ _ Hd) as [st [_ [_ [_ [_ [_ [Hl [Hmin Hmax]]]]]]]].
  rewrite Hl, Hmin, Hmax. split; [reflexivity|]. split.
  { intros k sw H.
    destruct k as [|[|[|[|[|k]]]]]; vm_compute in H;
      [..|destruct k; discriminate];
      injection H as <-; repeat split; reflexivity. }
  repeat split; try reflexivity.
  intros t rc Ht Hrc.
  destruct (render_rect_origin _ _ _ _ _ _ Hd Ht Hrc)
    as [st' [c [gl [r [y [L [w [_ [_ [_ Hgr]]]]]]]]]].
  destruct (gene_rect_inr _ _ _ _ _ _ Hgr) as [fw [k [_ [_ [Hc _]]]]].
  apply py_index_in in Hc.
  assert (Hf : map rfill legend = colors) by reflexivity.
  rewrite <- Hf in Hc. apply in_map_iff in Hc as [sw [Hsw Hin]]. eauto.
Qed.

(** A chromosome whose largest gene end is 0 makes [create_visualization]
    raise before [dwg.save()] (its rectangles divide by its length), so no
    file is written. *)
Theorem zero_length_chromosome_fails py_float sqrt gls sls g c gl :
  read_data py_float gls = inr g -> dict_get c g = Some gl -> get_chromosome_length gl = inr 0%Z ->
  exists e, create_visualization py_float sqrt gls sls = inl e.
Proof.
  intros Hg Hc HL. unfold create_visualization. rewrite Hg. cbv [bind].
  destruct (read_data py_float sls) as [e|s]; [eauto|].
  destruct (render sqrt g s) as [e|d] eqn:E; [eauto|exfalso].
  destruct (render_inr _ _ _ _ E) as [st [Hs Htr]].
  destruct (compute_setup_inr _ _ _ _ Hs) as [Ho [Hcl _]].
  destruct (chromosome_order_inr _ _ Ho) as [Hp _].
  assert (Hin : In c (s_chromosomes st)).
  { eapply Permutation_in; [symmetry; exact Hp|].
    apply dict_get_in in Hc. apply (in_map fst) in Hc. exact Hc. }
  destruct (render_tracks_in _ _ _ _ _ _ _ Htr Hin) as [j [t Ht]].
  destruct (render_track_inr _ _ _ _ _ _ Ht) as [L [w [gl' [sl [HcL [_ [Hg' [_ [_ [_ [Hr _]]]]]]]]]]].
  destruct (chr_lengths_in _ _ _ _ _ Hcl Hin) as [gl'' [L' [Hg'' [HL' HcL']]]].
  rewrite Hc in Hg', Hg''. injection Hg' as <-. injection Hg'' as <-.
  unfold get_chromosome_length in HL. rewrite HL in HL'. injection HL' as <-.
  rewrite HcL in HcL'. injection HcL' as ->.
  destruct gl as [|r gl]; [discriminate|].
  assert (Hz : gene_rect st (track_y j) 0 w r = inl ZeroDivisionError)
    by (destruct r as [[a b] v]; reflexivity).
  cbn [mapR] in Hr. rewrite Hz in Hr. discriminate.
Qed.

(* ------------------------------------------------------------------ *)
(** ** Stability of [sorted] *)

Section SortStability.
Variable k : Z.

Let at_key (q : Z * string) : bool := Z.eqb (fst q) k.

Lemma sorted_head_least q l : Sorted key_le (q :: l) -> Forall (key_le q) l.
Proof.
  intros H. apply Sorted_StronglySorted in H.
  - inversion H; assumption.
  - intros a b c; unfold key_le; lia.
Qed.

Lemma insert_key_filter p l :
  Sorted key_le l -> filter at_key (insert_key p l) = filter at_key l ++ filter at_key [p].
Proof.
  induction l as [|q l IH]; intros Hs; [reflexivity|].
  cbn [insert_key]. destruct (fst p <? fst q)%Z eqn:E.
  - apply Z.ltb_lt in E.
    assert (Hnone : filter at_key (q :: l) = [] \/ at_key p = false).
    { destruct (at_key p) eqn:Ep; [left|right; reflexivity].
      unfold at_key in Ep; apply Z.eqb_eq in Ep.
      pose proof (sorted_head_least _ _ Hs) as Hf. clear IH Hs.
      cbn [filter]. unfold at_key at 1. destruct (fst q =? k)%Z eqn:Eq; [apply Z.eqb_eq in Eq; lia|].
      induction Hf as [|x l' Hx _ IHf]; [reflexivity|].
      cbn [filter]. unfold at_key at 1. destruct (fst x =? k)%Z eqn:Ex; [|exact IHf].
      apply Z.eqb_eq in Ex. unfold key_le in Hx. lia. }
    cbn [filter]. destruct Hnone as [Hn | Hn].
    + cbn [filter] in Hn. rewrite Hn. destruct (at_key p); reflexivity.
    + rewrite Hn, app_nil_r. reflexivity.
  - cbn [filter]. rewrite IH by (eapply Sorted_inv; eauto).
    destruct (at_key q); reflexivity.
Qed.

Lemma fold_insert_filter l acc :
  Sorted key_le acc ->
  filter at_key (fold_left (fun acc p => insert_key p acc) l acc) = filter at_key acc ++ filter at_key l.
Proof.
  revert acc; induction l as [|p l IH]; intros acc Hs; simpl.
  - rewrite app_nil_r. reflexivity.
  - rewrite IH by (apply insert_key_sorted, Hs).
    rewrite insert_key_filter by exact Hs. rewrite <- app_assoc.
    simpl. destruct (at_key p); reflexivity.
Qed.

Lemma stable_sort_filter l : filter at_key (stable_sort l) = filter at_key l.
Proof. unfold stable_sort. rewrite fold_insert_filter by constructor. reflexivity. Qed.

Lemma filter_names l :
  Forall (fun p => suffix_key (snd p) = Some (fst p)) l ->
  filter (fun c => match suffix_key c with Some k' => Z.eqb k' k | None => false end) (map snd l) =
  map snd (filter at_key l).
Proof.
  induction 1 as [|p l Hp _ IH]; [reflexivity|]. simpl. rewrite Hp, IH.
  unfold at_key. destruct (fst p =? k)%Z; reflexivity.
Qed.

End SortStability.

(** [sorted] is stable: chromosome names with the same integer suffix (such
    as "chr1" and "chr01") are drawn in the order of the gene dict's keys,
    i.e. in the order in which they first appear in the gene file. *)
Theorem equal_suffix_keep_key_order sqrt g s d k :
  render sqrt g s = inr d ->
  filter (fun c => match suffix_key c with Some k' => Z.eqb k' k | None => false end)
         (map (fun t => txt (tr_label t)) (d_tracks d)) =
  filter (fun c => match suffix_key c with Some k' => Z.eqb k' k | None => false end)
         (dict_keys g).
Proof.
  intros Hd. destruct (render_inr _ _ _ _ Hd) as [st [Hs Htr]].
  rewrite (proj1 (render_tracks_labels _ _ _ _ _ _ Htr)).
  destruct (compute_setup_inr _ _ _ _ Hs) as [Ho _].
  unfold chromosome_order in Ho. inv_bind Ho. injection Ho as Ho. rewrite <- Ho.
  apply mapR_inr in Ha.
  assert (Hk : map snd a = dict_keys g /\ Forall (fun p => suffix_key (snd p) = Some (fst p)) a).
  { clear -Ha. induction Ha as [|c p cs ps Hp _ [IH1 IH2]]; simpl; [auto|].
    unfold parse_field in Hp. destruct (suffix_key c) eqn:E; [|discriminate].
    inversion Hp; subst; simpl. split; [congruence|]. constructor; auto. }
  destruct Hk as [Hk1 Hk2]. rewrite <- Hk1.
  assert (Hf : Forall (fun p => suffix_key (snd p) = Some (fst p)) (stable_sort a)).
  { eapply Permutation_Forall; [symmetry; apply stable_sort_perm | exact Hk2]. }
  rewrite (filter_names k _ Hf), (filter_names k _ Hk2), stable_sort_filter. reflexivity.
Qed.

(** A chromosome name that makes its clip-path id [clip-<chrom>] invalid
    for svgwrite (a space, tab, line break, [,], [(] or [)] in it) makes
    [create_visualization] raise before [dwg.save()], so no file is written. *)
Theorem invalid_clip_id_fails py_float sqrt gls sls g c :
  read_data py_float gls = inr g -> In c (dict_keys g) ->
  svg_is_name (String.append "clip-" c) = false ->
  exists e, create_visualization py_float sqrt gls sls = inl e.
Proof.
  intros Hg Hc Hbad. unfold create_visualization. rewrite Hg. cbv [bind].
  destruct (read_data py_float sls) as [e|s]; [eauto|].
  destruct (render sqrt g s) as [e|d] eqn:E; [eauto|exfalso].
  destruct (render_inr _ _ _ _ E) as [st [Hs Htr]].
  destruct (compute_setup_inr _ _ _ _ Hs) as [Ho _].
  destruct (chromosome_order_inr _ _ Ho) as [Hp _].
  assert (Hin : In c (s_chromosomes st)) by (eapply Permutation_in; [symmetry; exact Hp | exact Hc]).
  destruct (render_tracks_in _ _ _ _ _ _ _ Htr Hin) as [j [t Ht]].
  apply render_track_name in Ht. congruence.
Qed.

(* ------------------------------------------------------------------ *)
(** ** Witnesses of the further properties *)

Lemma read_data_groups_witness :
  read_data py_float_dec two_chr_gene_lines = inr two_chr_genes /\
  exists parsed, map (parse_line py_float_dec) two_chr_gene_lines = map Some parsed /\
    dict_keys two_chr_genes = first_appearance (map fst parsed) /\
    forall c, dict_get c two_chr_genes = nonempty_opt (records_of c parsed).
Proof.
  assert (H : read_data py_float_dec two_chr_gene_lines = inr two_chr_genes)
    by (vm_compute; reflexivity).
  split; [exact H|]. exact (read_data_groups py_float_dec two_chr_gene_lines two_chr_genes H).
Defined.

Lemma clip_ids_distinct_witness :
  create_visualization py_float_dec qsqrt two_chr_gene_lines two_chr_ok_snp_lines
    = inr two_chr_ok_drawing /\
  map tr_clip_id (d_tracks two_chr_ok_drawing) =
    map (fun t => String.append "clip-" (txt (tr_label t))) (d_tracks two_chr_ok_drawing) /\
  NoDup (map tr_clip_id (d_tracks two_chr_ok_drawing)).
Proof.
  assert (H : create_visualization py_float_dec qsqrt two_chr_gene_lines two_chr_ok_snp_lines
                = inr two_chr_ok_drawing) by (vm_compute; reflexivity).
  split; [exact H|]. exact (clip_ids_distinct _ _ _ _ _ H).
Defined.

Lemma color_index_monotone_witness :
  0 < 2 /\ 1 # 2 <= 3 # 2 /\
  color_index 0 2 (1 # 2) = inr 1%Z /\ color_index 0 2 (3 # 2) = inr 3%Z /\ (1 <= 3)%Z.
Proof.
  assert (H1 : 0 < 2) by (vm_compute; reflexivity).
  assert (H2 : 1 # 2 <= 3 # 2) by (apply Qle_bool_imp_le; vm_compute; reflexivity).
  assert (H3 : color_index 0 2 (1 # 2) = inr 1%Z) by (vm_compute; reflexivity).
  assert (H4 : color_index 0 2 (3 # 2) = inr 3%Z) by (vm_compute; reflexivity).
  refine (conj H1 (conj H2 (conj H3 (conj H4 _)))).
  exact (color_index_monotone _ _ _ _ _ _ H1 H2 H3 H4).
Defined.

Lemma gene_rects_inside_shape_witness :
  render qsqrt two_chr_genes two_chr_ok_snps = inr two_chr_ok_drawing /\
  In two_chr_ok_track (d_tracks two_chr_ok_drawing) /\
  exists gl, dict_get (txt (tr_label two_chr_ok_track)) two_chr_genes = Some gl /\
  Forall2 (fun r rc => (1 <= fst (fst r) <= snd (fst r))%Z ->
             px (tr_shape two_chr_ok_track) <= rx rc <=
               px (tr_shape two_chr_ok_track) + pw (tr_shape two_chr_ok_track) /\
             (rx rc + rw rc <= px (tr_shape two_chr_ok_track) + pw (tr_shape two_chr_ok_track)
              \/ rw rc == 1))
          gl (tr_rects two_chr_ok_track).
Proof.
  assert (H1 : render qsqrt two_chr_genes two_chr_ok_snps = inr two_chr_ok_drawing)
    by (vm_compute; reflexivity).
  assert (H2 : In two_chr_ok_track (d_tracks two_chr_ok_drawing))
    by (unfold two_chr_ok_track; apply nth_In; vm_compute; lia).
  split; [exact H1|]. split; [exact H2|].
  exact (gene_rects_inside_shape _ _ _ _ _ H1 H2).
Defined.

Lemma snp_x_inside_iff_witness :
  render qsqrt two_chr_genes two_chr_ok_snps = inr two_chr_ok_drawing /\
  In two_chr_ok_track (d_tracks two_chr_ok_drawing) /\
  exists gl sl L, dict_get (txt (tr_label two_chr_ok_track)) two_chr_genes = Some gl /\
    get_chromosome_length gl = inr L /\
    dict_get (txt (tr_label two_chr_ok_track)) two_chr_ok_snps = Some sl /\
    ((0 < L)%Z ->
     Forall2 (fun r p => px (tr_shape two_chr_ok_track) <= fst p <=
                           px (tr_shape two_chr_ok_track) + pw (tr_shape two_chr_ok_track) <->
                         (1 <= fst (fst r) <= L + 1)%Z) sl (tr_points two_chr_ok_track)).
Proof.
  assert (H1 : render qsqrt two_chr_genes two_chr_ok_snps = inr two_chr_ok_drawing)
    by (vm_compute; reflexivity).
  assert (H2 : In two_chr_ok_track (d_tracks two_chr_ok_drawing))
    by (unfold two_chr_ok_track; apply nth_In; vm_compute; lia).
  split; [exact H1|]. split; [exact H2|].
  exact (snp_x_inside_iff _ _ _ _ _ H1 H2).
Defined.

Lemma snp_band_witness :
  render qsqrt two_chr_genes two_chr_ok_snps = inr two_chr_ok_drawing /\
  (forall v, In v (all_values two_chr_ok_snps) -> 0 <= v) /\
  In two_chr_ok_track (d_tracks two_chr_ok_drawing) /\
  Forall (fun p => py (tr_shape two_chr_ok_track) - 130 <= snd p <= py (tr_shape two_chr_ok_track) - 30)
         (tr_points two_chr_ok_track) /\
  lx1 (tr_axis two_chr_ok_track) == 90 /\ lx2 (tr_axis two_chr_ok_track) == 90 /\
  ly2 (tr_axis two_chr_ok_track) == py (tr_shape two_chr_ok_track) - 30 /\
  In (ly1 (tr_axis two_chr_ok_track)) (map snd (tr_points two_chr_ok_track)) /\
  (forall p, In p (tr_points two_chr_ok_track) -> ly1 (tr_axis two_chr_ok_track) <= snd p) /\
  py (tr_shape two_chr_ok_track) - 130 <= ly1 (tr_axis two_chr_ok_track) <= ly2 (tr_axis two_chr_ok_track).
Proof.
  assert (H1 : render qsqrt two_chr_genes two_chr_ok_snps = inr two_chr_ok_drawing)
    by (vm_compute; reflexivity).
  assert (H2 : forall v, In v (all_values two_chr_ok_snps) -> 0 <= v).
  { intros v Hv. vm_compute in Hv.
    repeat (destruct Hv as [<- | Hv]; [apply Qle_bool_imp_le; vm_compute; reflexivity|]).
    destruct Hv. }
  assert (H3 : In two_chr_ok_track (d_tracks two_chr_ok_drawing))
    by (unfold two_chr_ok_track; apply nth_In; vm_compute; lia).
  refine (conj H1 (conj H2 (conj H3 _))).
  exact (snp_band _ _ _ _ _ H1 H2 H3).
Defined.

Lemma track_width_bounds_witness :
  render qsqrt two_chr_genes two_chr_ok_snps = inr two_chr_ok_drawing /\
  compute_setup qsqrt two_chr_genes two_chr_ok_snps = inr two_chr_ok_setup /\
  In two_chr_ok_track (d_tracks two_chr_ok_drawing) /\
  exists gl L, dict_get (txt (tr_label two_chr_ok_track)) two_chr_genes = Some gl /\
    get_chromosome_length gl = inr L /\ (L <= s_max_chr_len two_chr_ok_setup)%Z /\
    ((0 < L)%Z -> 0 < pw (tr_shape two_chr_ok_track) <= 1000 /\
                  (pw (tr_shape two_chr_ok_track) == 1000 <-> L = s_max_chr_len two_chr_ok_setup)).
Proof.
  assert (H1 : render qsqrt two_chr_genes two_chr_ok_snps = inr two_chr_ok_drawing)
    by (vm_compute; reflexivity).
  assert (H2 : compute_setup qsqrt two_chr_genes two_chr_ok_snps = inr two_chr_ok_setup)
    by (vm_compute; reflexivity).
  assert (H3 : In two_chr_ok_track (d_tracks two_chr_ok_drawing))
    by (unfold two_chr_ok_track; apply nth_In; vm_compute; lia).
  refine (conj H1 (conj H2 (conj H3 _))).
  exact (track_width_bounds _ _ _ _ _ _ H1 H2 H3).
Defined.

Lemma chromosome_outline_witness :
  render qsqrt two_chr_genes two_chr_ok_snps = inr two_chr_ok_drawing /\
  compute_setup qsqrt two_chr_genes two_chr_ok_snps = inr two_chr_ok_setup /\
  In two_chr_ok_track (d_tracks two_chr_ok_drawing) /\
  exists x0 x1 y0 r h,
    outline (tr_shape two_chr_ok_track) =
      [MoveTo x0 y0; LineTo x1 y0; ArcTo r r 0 0 1 x1 (y0 + h); LineTo x0 (y0 + h);
       ArcTo r r 0 0 1 x0 y0; ClosePath] /\
    x0 == 107 /\ y0 = py (tr_shape two_chr_ok_track) /\ h == 14 /\ r == 7 /\
    x1 - x0 == pw (tr_shape two_chr_ok_track) - 14 /\
    exists L, dict_get (txt (tr_label two_chr_ok_track)) (s_chr_lengths two_chr_ok_setup) = Some L /\
      ((0 < s_max_chr_len two_chr_ok_setup)%Z ->
       (x1 < x0 <-> (1000 * L < 14 * s_max_chr_len two_chr_ok_setup)%Z)).
Proof.
  assert (H1 : render qsqrt two_chr_genes two_chr_ok_snps = inr two_chr_ok_drawing)
    by (vm_compute; reflexivity).
  assert (H2 : compute_setup qsqrt two_chr_genes two_chr_ok_snps = inr two_chr_ok_setup)
    by (vm_compute; reflexivity).
  assert (H3 : In two_chr_ok_track (d_tracks two_chr_ok_drawing))
    by (unfold two_chr_ok_track; apply nth_In; vm_compute; lia).
  refine (conj H1 (conj H2 (conj H3 _))).
  exact (chromosome_outline _ _ _ _ _ _ H1 H2 H3).
Defined.

Lemma ruler_ticks_witness :
  render qsqrt two_chr_genes two_chr_ok_snps = inr two_chr_ok_drawing /\
  compute_setup qsqrt two_chr_genes two_chr_ok_snps = inr two_chr_ok_setup /\
  List.length (d_ticks two_chr_ok_drawing) = 6%nat /\
  forall k tk, nth_error (d_ticks two_chr_ok_drawing) k = Some tk ->
    tk_x tk == 100 + 200 * Qz (Z.of_nat k) /\
    tk_mb tk == Qz (Z.of_nat k) * Qz (s_max_chr_len two_chr_ok_setup) / 5 / 1000000 /\
    lx1 (tk_line tk) = tk_x tk /\ lx2 (tk_line tk) = tk_x tk /\
    ly1 (tk_line tk) == Qz (d_height two_chr_ok_drawing) - 50 /\
    ly2 (tk_line tk) == ly1 (tk_line tk) + 5 /\
    tk_y tk == ly1 (tk_line tk) + 20 /\
    (forall L w, chr_width_of (s_max_chr_len two_chr_ok_setup) L = inr w ->
       Qz L == tk_mb tk * 1000000 -> Qz margin_side + w == tk_x tk).
Proof.
  assert (H1 : render qsqrt two_chr_genes two_chr_ok_snps = inr two_chr_ok_drawing)
    by (vm_compute; reflexivity).
  assert (H2 : compute_setup qsqrt two_chr_genes two_chr_ok_snps = inr two_chr_ok_setup)
    by (vm_compute; reflexivity).
  refine (conj H1 (conj H2 _)).
  exact (ruler_ticks _ _ _ _ _ H1 H2).
Defined.

Lemma page_layout_witness :
  render qsqrt two_chr_genes two_chr_ok_snps = inr two_chr_ok_drawing /\
  d_width two_chr_ok_drawing = 1200%Z /\
  d_height two_chr_ok_drawing = (134 * Z.of_nat (List.length (d_tracks two_chr_ok_drawing)) + 260)%Z /\
  (forall j t, nth_error (d_tracks two_chr_ok_drawing) j = Some t ->
     py (tr_shape t) = Qz (160 + 134 * Z.of_nat j)) /\
  (forall t tk, In t (d_tracks two_chr_ok_drawing) -> In tk (d_ticks two_chr_ok_drawing) ->
     py (tr_shape t) + ph (tr_shape t) < ly1 (tk_line tk) /\ ty (tr_label t) < ly1 (tk_line tk) /\
     tk_y tk < Qz (d_height two_chr_ok_drawing)).
Proof.
  assert (H1 : render qsqrt two_chr_genes two_chr_ok_snps = inr two_chr_ok_drawing)
    by (vm_compute; reflexivity).
  split; [exact H1|]. exact (page_layout _ _ _ _ H1).
Defined.

Lemma legend_layout_witness :
  render qsqrt two_chr_genes two_chr_ok_snps = inr two_chr_ok_drawing /\
  List.length (d_legend two_chr_ok_drawing) = 5%nat /\
  (forall k sw, nth_error (d_legend two_chr_ok_drawing) k = Some sw ->
     nth_error colors k = Some (rfill sw) /\ rx sw == 1000 + 20 * Qz (Z.of_nat k) /\
     rw sw == 20 /\ ry sw == 80 /\ rh sw == 20) /\
  txt (d_min_label two_chr_ok_drawing) = "Min"%string /\ tx (d_min_label two_chr_ok_drawing) == 1000 /\
  txt (d_max_label two_chr_ok_drawing) = "Max"%string /\ tx (d_max_label two_chr_ok_drawing) == 1100 /\
  (forall t rc, In t (d_tracks two_chr_ok_drawing) -> In rc (tr_rects t) ->
     exists sw, In sw (d_legend two_chr_ok_drawing) /\ rfill sw = rfill rc).
Proof.
  assert (H1 : render qsqrt two_chr_genes two_chr_ok_snps = inr two_chr_ok_drawing)
    by (vm_compute; reflexivity).
  split; [exact H1|]. exact (legend_layout _ _ _ _ H1).
Defined.

Lemma zero_length_chromosome_fails_witness :
  read_data py_float_dec zero_gene_lines = inr zero_genes /\
  dict_get "chr1" zero_genes = Some (run_or [] (dict_lookup "chr1" zero_genes)) /\
  get_chromosome_length (run_or [] (dict_lookup "chr1" zero_genes)) = inr 0%Z /\
  exists e, create_visualization py_float_dec qsqrt zero_gene_lines one_chr_snp_lines = inl e.
Proof.
  assert (H1 : read_data py_float_dec zero_gene_lines = inr zero_genes) by (vm_compute; reflexivity).
  assert (H2 : dict_get "chr1" zero_genes = Some (run_or [] (dict_lookup "chr1" zero_genes)))
    by (vm_compute; reflexivity).
  assert (H3 : get_chromosome_length (run_or [] (dict_lookup "chr1" zero_genes)) = inr 0%Z)
    by (vm_compute; reflexivity).
  refine (conj H1 (conj H2 (conj H3 _))).
  exact (zero_length_chromosome_fails _ _ _ _ _ _ _ H1 H2 H3).
Defined.

Lemma equal_suffix_keep_key_order_witness :
  render qsqrt tie_genes tie_snps = inr tie_drawing /\
  filter (fun c => match suffix_key c with Some k' => Z.eqb k' 1 | None => false end)
         (map (fun t => txt (tr_label t)) (d_tracks tie_drawing)) = ["chr01"; "chr1"]%string.
Proof.
  assert (H1 : render qsqrt tie_genes tie_snps = inr tie_drawing) by (vm_compute; reflexivity).
  split; [exact H1|].
  rewrite (equal_suffix_keep_key_order _ _ _ _ 1%Z H1). vm_compute. reflexivity.
Defined.

Lemma invalid_clip_id_fails_witness :
  read_data py_float_dec paren_gene_lines = inr paren_genes /\
  In "c(r1"%string (dict_keys paren_genes) /\
  svg_is_name (String.append "clip-" "c(r1") = false /\
  exists e, create_visualization py_float_dec qsqrt paren_gene_lines paren_snp_lines = inl e.
Proof.
  assert (H1 : read_data py_float_dec paren_gene_lines = inr paren_genes) by (vm_compute; reflexivity).
  assert (H2 : In "c(r1"%string (dict_keys paren_genes)) by (vm_compute; left; reflexivity).
  assert (H3 : svg_is_name (String.append "clip-" "c(r1") = false) by (vm_compute; reflexivity).
  refine (conj H1 (conj H2 (conj H3 _))).
  exact (invalid_clip_id_fails _ _ _ _ _ _ H1 H2 H3).
Defined.
